(** * rgb-promini: a three-channel PWM driver controlled by three buttons

    Shallow embedding of [src/rgb-promini/rgb-promini.ino] and the
    properties of its debounce / tap / hold / save logic.

    The sketch keeps its state in parallel global arrays indexed by the
    channel number; they are modelled as lists read with [!!!] and
    updated with [<[i:=v]>].  One call of [loop()] is a function from the
    inputs sampled during the call (the millisecond counter and the pin
    levels) and the globals to the new globals and the list of hardware
    effects it performed, in order. *)

From Stdlib Require Import ZArith Lia.
From stdpp Require Import base list.

Local Open Scope Z_scope.

(** ** Platform: Arduino Pro Mini (ATmega328, avr-gcc) *)

(** [Arduino.h]: logic levels and pin modes. *)
Definition LOW : Z := 0.
Definition HIGH : Z := 1.

Inductive pin_mode := INPUT | OUTPUT.

(** Integer conversions: [int] is 16 bits, [long] 32 bits, [uint8_t] 8. *)
Definition int_of (z : Z) : Z := (z + 2 ^ 15) mod 2 ^ 16 - 2 ^ 15.
Definition long_of (z : Z) : Z := (z + 2 ^ 31) mod 2 ^ 32 - 2 ^ 31.
Definition ulong_of (z : Z) : Z := z mod 2 ^ 32.
Definition uint8_of (z : Z) : Z := z mod 2 ^ 8.

(** The [min(a,b)] macro: [((a)<(b)?(a):(b))]. *)
Definition min_macro (a b : Z) : Z := if a <? b then a else b.

(** The hardware effects of the sketch, as they appear on a trace. *)
Inductive event :=
  | PinMode (pin : Z) (m : pin_mode)
  | AnalogWrite (pin val : Z)
  | Delay (ms : Z)
  | EepromWrite (addr val : Z).

(** The EEPROM is a byte memory: every cell holds some byte. *)
Definition eeprom := Z -> Z.

(** [EEPROM.read(addr)] returns a [uint8_t]. *)
Definition EEPROM_read (e : eeprom) (addr : Z) : Z := uint8_of (e addr).

(** [EEPROM.write(addr, val)] takes a [uint8_t] value. *)
Definition EEPROM_write (e : eeprom) (addr val : Z) : eeprom :=
  fun a => if a =? addr then uint8_of val else e a.

(** ** Constants of the sketch *)

Definition EEPROM_DATA_OFFSET : Z := 0.
Definition NUM_COLORS : nat := 3.
Definition HOLD_TIME_CLEAR : Z := 1500.
Definition HOLD_TIME_SAVE : Z := 1000.
Definition BLINK_DELAY : Z := 100.
Definition PWM_INCREMENT : Z := 16.
Definition INPUTS : list Z := [10; 11; 12].
Definition OUTPUTS : list Z := [3; 5; 6].

(** [long debounceDelay = 30;] is never assigned after its initialiser. *)
Definition debounceDelay : Z := 30.

(** ** Globals *)

Record state := State {
  Values : list Z;
  lastValues : list Z;
  curButtonStates : list Z;
  lastButtonStates : list Z;
  buttonsHeld : list Z;
  lastDebounceTimes : list Z;
  EEPROM : eeprom
}.

(** The globals after their C initialisers, over EEPROM contents [e]. *)
Definition power_on (e : eeprom) : state :=
  State [0; 0; 0] [0; 0; 0] [LOW; 0; 0] [LOW; 0; 0] [0; 0; 0] [0; 0; 0] e.

(** Array stores [a[i] = v]. *)
Definition set_Values (i : nat) (v : Z) (s : state) : state :=
  State (<[i:=v]> (Values s)) (lastValues s) (curButtonStates s)
        (lastButtonStates s) (buttonsHeld s) (lastDebounceTimes s) (EEPROM s).
Definition set_lastValues (i : nat) (v : Z) (s : state) : state :=
  State (Values s) (<[i:=v]> (lastValues s)) (curButtonStates s)
        (lastButtonStates s) (buttonsHeld s) (lastDebounceTimes s) (EEPROM s).
Definition set_curButtonStates (i : nat) (v : Z) (s : state) : state :=
  State (Values s) (lastValues s) (<[i:=v]> (curButtonStates s))
        (lastButtonStates s) (buttonsHeld s) (lastDebounceTimes s) (EEPROM s).
Definition set_lastButtonStates (i : nat) (v : Z) (s : state) : state :=
  State (Values s) (lastValues s) (curButtonStates s)
        (<[i:=v]> (lastButtonStates s)) (buttonsHeld s) (lastDebounceTimes s)
        (EEPROM s).
Definition set_buttonsHeld (i : nat) (v : Z) (s : state) : state :=
  State (Values s) (lastValues s) (curButtonStates s)
        (lastButtonStates s) (<[i:=v]> (buttonsHeld s)) (lastDebounceTimes s)
        (EEPROM s).
Definition set_lastDebounceTimes (i : nat) (v : Z) (s : state) : state :=
  State (Values s) (lastValues s) (curButtonStates s)
        (lastButtonStates s) (buttonsHeld s) (<[i:=v]> (lastDebounceTimes s))
        (EEPROM s).
Definition set_EEPROM (e : eeprom) (s : state) : state :=
  State (Values s) (lastValues s) (curButtonStates s)
        (lastButtonStates s) (buttonsHeld s) (lastDebounceTimes s) e.

(** What one call of [loop()] samples: [millis()] and the pin levels
    returned by [digitalRead]. *)
Record input := Input {
  millis : Z;
  digitalRead : Z -> Z
}.

(** ** [loop()], lines 92-169 *)

(** [ts - lastDebounceTimes[i]]: [ts] is [unsigned long], the array
    element is [long], so the subtraction is done modulo 2^32. *)
Definition elapsed (ts : Z) (i : nat) (s : state) : Z :=
  ulong_of (ts - lastDebounceTimes s !!! i).

(** Lines 99-101. *)
Definition stamp (ts reading : Z) (i : nat) (s : state) : state :=
  if negb (reading =? lastButtonStates s !!! i)
  then set_lastDebounceTimes i (long_of ts) s
  else s.

(** Lines 110-115. *)
Definition increment (i : nat) (s : state) : state :=
  let s :=
    if Values s !!! i =? 255
    then set_Values i 0 s
    else set_Values i (int_of (Values s !!! i + PWM_INCREMENT)) s in
  set_Values i (min_macro (Values s !!! i) 255) s.

(** The two guards of lines 103 and 105. *)
Definition commit_fires (ts reading : Z) (i : nat) (s : state) : bool :=
  (ulong_of debounceDelay <? elapsed ts i s)
  && negb (reading =? curButtonStates s !!! i).

(** Lines 103-120. *)
Definition commit (ts reading : Z) (i : nat) (s : state) : state :=
  if commit_fires ts reading i s then
    let s := set_curButtonStates i reading s in
    let s :=
      if (curButtonStates s !!! i =? LOW) && (buttonsHeld s !!! i =? 0)
      then increment i s
      else s in
    set_buttonsHeld i 0 s
  else s.

(** The guard of line 124. *)
Definition hold_due (ts : Z) (i : nat) (s : state) : bool :=
  (curButtonStates s !!! i =? HIGH)
  && (ulong_of HOLD_TIME_CLEAR <? elapsed ts i s).

(** Lines 124-127. *)
Definition hold_clear (ts : Z) (i : nat) (s : state) : state :=
  if hold_due ts i s
  then set_buttonsHeld i 1 (set_Values i 0 s)
  else s.

(** The body of the first [for], lines 98-129. *)
Definition channel_body (inp : input) (i : nat) (s : state) : state :=
  let ts := millis inp in
  let reading := digitalRead inp (INPUTS !!! i) in
  let s := stamp ts reading i s in
  let s := commit ts reading i s in
  let s := hold_clear ts i s in
  set_lastButtonStates i reading s.

(** [for (int i = 0; i < NUM_COLORS; ++i)] over a state transformer. *)
Definition for_colors (body : nat -> state -> state) (s : state) : state :=
  foldl (fun s i => body i s) s (seq 0 NUM_COLORS).

Definition check_channels (inp : input) (s : state) : state :=
  for_colors (channel_body inp) s.

(** Lines 133-138: the write-on-change step and the writes it makes. *)
Definition apply_body (i : nat) (st : state * list event)
  : state * list event :=
  let s := st.1 in
  if negb (Values s !!! i =? lastValues s !!! i)
  then (set_lastValues i (Values s !!! i) s,
        st.2 ++ [AnalogWrite (OUTPUTS !!! i) (Values s !!! i)])
  else st.

Definition apply_changes (s : state) : state * list event :=
  foldl (fun st i => apply_body i st) (s, []) (seq 0 NUM_COLORS).

(** Lines 141-146. *)
Definition save_condition (ts : Z) (s : state) : bool :=
  (curButtonStates s !!! 0%nat =? HIGH)
  && (curButtonStates s !!! 1%nat =? HIGH)
  && (curButtonStates s !!! 2%nat =? HIGH)
  && (ulong_of HOLD_TIME_SAVE <? elapsed ts 0 s)
  && (ulong_of HOLD_TIME_SAVE <? elapsed ts 1 s)
  && (ulong_of HOLD_TIME_SAVE <? elapsed ts 2 s).

(** The [analogWrite] loops of the blink. *)
Definition write_all (f : nat -> Z) : list event :=
  (fun i => AnalogWrite (OUTPUTS !!! i) (f i)) <$> seq 0 NUM_COLORS.

(** Lines 149-164. *)
Definition blink (s : state) : list event :=
  write_all (fun _ => 0) ++ [Delay BLINK_DELAY]
  ++ write_all (fun i => Values s !!! i) ++ [Delay BLINK_DELAY]
  ++ write_all (fun _ => 0) ++ [Delay BLINK_DELAY]
  ++ write_all (fun i => Values s !!! i).

(** [SaveState()], lines 172-178. *)
Definition SaveState_body (i : nat) (st : state * list event)
  : state * list event :=
  let s := st.1 in
  let addr := Z.of_nat i + EEPROM_DATA_OFFSET in
  (set_EEPROM (EEPROM_write (EEPROM s) addr (Values s !!! i)) s,
   st.2 ++ [EepromWrite addr (uint8_of (Values s !!! i))]).

Definition SaveState (s : state) : state * list event :=
  foldl (fun st i => SaveState_body i st) (s, []) (seq 0 NUM_COLORS).

(** [LoadState()], lines 181-187. *)
Definition LoadState_body (i : nat) (s : state) : state :=
  let s :=
    set_lastValues i
      (EEPROM_read (EEPROM s) (Z.of_nat i + EEPROM_DATA_OFFSET)) s in
  set_Values i (lastValues s !!! i) s.

Definition LoadState (s : state) : state := for_colors LoadState_body s.

(** Lines 141-168. *)
Definition save_gesture (ts : Z) (s : state) : state * list event :=
  if save_condition ts s then
    let s1 :=
      set_buttonsHeld 0 1 (set_buttonsHeld 1 1 (set_buttonsHeld 2 1 s)) in
    let st := SaveState s1 in
    (st.1, blink s ++ st.2)
  else (s, []).

Definition loop (inp : input) (s : state) : state * list event :=
  let s1 := check_channels inp s in
  let st2 := apply_changes s1 in
  let st3 := save_gesture (millis inp) st2.1 in
  (st3.1, st2.2 ++ st3.2).

(** ** [setup()], lines 70-90 *)
Definition setup (s : state) : state * list event :=
  let modes :=
    mjoin ((fun i => [PinMode (INPUTS !!! i) INPUT;
                      PinMode (OUTPUTS !!! i) OUTPUT]) <$> seq 0 NUM_COLORS) in
  let s1 := LoadState s in
  (s1, modes ++ write_all (fun _ => 0) ++ write_all (fun i => Values s1 !!! i)).

(** ** Running the sketch *)

(** [loop()] called once per element of [ins], traces concatenated. *)
Fixpoint run (ins : list input) (s : state) : state * list event :=
  match ins with
  | [] => (s, [])
  | inp :: ins' =>
      let st := loop inp s in
      let st' := run ins' st.1 in
      (st'.1, st.2 ++ st'.2)
  end.

(** Power-on over EEPROM contents [e], [setup()], then [loop()] forever:
    the state and the whole trace after the calls in [ins]. *)
Definition boot (e : eeprom) (ins : list input) : state * list event :=
  let st := setup (power_on e) in
  let st' := run ins st.1 in
  (st'.1, st.2 ++ st'.2).

(** ** Well-formed globals and the view of one channel *)

(** Every array has its [NUM_COLORS] elements. *)
Definition wf (s : state) : Prop :=
  length (Values s) = NUM_COLORS
  ∧ length (lastValues s) = NUM_COLORS
  ∧ length (curButtonStates s) = NUM_COLORS
  ∧ length (lastButtonStates s) = NUM_COLORS
  ∧ length (buttonsHeld s) = NUM_COLORS
  ∧ length (lastDebounceTimes s) = NUM_COLORS.

(** The six array elements of channel [i], side by side. *)
Record channel := Channel {
  value : Z;
  lastValue : Z;
  cur : Z;
  last : Z;
  heldFlag : Z;
  debounceTime : Z
}.

Definition view (s : state) (i : nat) : channel :=
  Channel (Values s !!! i) (lastValues s !!! i) (curButtonStates s !!! i)
          (lastButtonStates s !!! i) (buttonsHeld s !!! i)
          (lastDebounceTimes s !!! i).

(** What lines 110-115 do to the one value they touch. *)
Definition bump (v : Z) : Z :=
  min_macro (if v =? 255 then 0 else int_of (v + PWM_INCREMENT)) 255.

(** What each part of [channel_body] does to the elements of its own
    channel; shown equal to it in [view_channel_body]. *)
Definition stamp_step (ts reading : Z) (c : channel) : channel :=
  if negb (reading =? last c)
  then Channel (value c) (lastValue c) (cur c) (last c) (heldFlag c)
               (long_of ts)
  else c.

Definition fires (ts reading : Z) (c : channel) : bool :=
  (ulong_of debounceDelay <? ulong_of (ts - debounceTime c))
  && negb (reading =? cur c).

Definition commit_step (ts reading : Z) (c : channel) : channel :=
  if fires ts reading c then
    Channel (if (reading =? LOW) && (heldFlag c =? 0)
             then bump (value c) else value c)
            (lastValue c) reading (last c) 0 (debounceTime c)
  else c.

Definition due (ts : Z) (c : channel) : bool :=
  (cur c =? HIGH) && (ulong_of HOLD_TIME_CLEAR <? ulong_of (ts - debounceTime c)).

Definition hold_step (ts : Z) (c : channel) : channel :=
  if due ts c
  then Channel 0 (lastValue c) (cur c) (last c) 1 (debounceTime c)
  else c.

Definition channel_step (ts reading : Z) (c : channel) : channel :=
  let c := hold_step ts (commit_step ts reading (stamp_step ts reading c)) in
  Channel (value c) (lastValue c) (cur c) reading (heldFlag c)
          (debounceTime c).


(** ** Notions used in the statements and proofs *)

(** The write-on-change step: what it leaves in the arrays... *)
Definition applied (c : channel) : channel :=
  Channel (value c) (value c) (cur c) (last c) (heldFlag c) (debounceTime c).

(** ... and the write it makes for channel [i], if any. *)
Definition apply_event (s : state) (i : nat) : list event :=
  if negb (Values s !!! i =? lastValues s !!! i)
  then [AnalogWrite (OUTPUTS !!! i) (Values s !!! i)]
  else [].

Definition saved_eeprom (s : state) : eeprom :=
  EEPROM_write
    (EEPROM_write (EEPROM_write (EEPROM s) 0 (Values s !!! 0%nat))
       1 (Values s !!! 1%nat))
    2 (Values s !!! 2%nat).

Definition save_events (s : state) : list event :=
  [EepromWrite 0 (uint8_of (Values s !!! 0%nat));
   EepromWrite 1 (uint8_of (Values s !!! 1%nat));
   EepromWrite 2 (uint8_of (Values s !!! 2%nat))].

Definition all_held (s : state) : state :=
  set_buttonsHeld 0 1 (set_buttonsHeld 1 1 (set_buttonsHeld 2 1 s)).

(** The condition of the gesture, channel by channel. *)
Definition holding (ts : Z) (c : channel) : bool :=
  (cur c =? HIGH) && (ulong_of HOLD_TIME_SAVE <? ulong_of (ts - debounceTime c)).

(** The level channel [i] reads during the call. *)
Definition reading (inp : input) (i : nat) : Z := digitalRead inp (INPUTS !!! i).

(** Channel [i] after the first [for]. *)
Definition stepped (inp : input) (s : state) (i : nat) : channel :=
  channel_step (millis inp) (reading inp i) (view s i).

(** Whether the call ends with the save gesture. *)
Definition saving (inp : input) (s : state) : bool :=
  save_condition (millis inp) (check_channels inp s).

(** The state in which the gesture is evaluated. *)
Abbreviation checked inp s := (apply_changes (check_channels inp s)).1.

(** [P] holds of every call of a run: of its input, the state before
    and the state after. *)
Fixpoint along (P : input → state → state → Prop)
    (ins : list input) (s : state) : Prop :=
  match ins with
  | [] => True
  | inp :: ins' => P inp s (loop inp s).1 ∧ along P ins' (loop inp s).1
  end.

(** Whether the call of [loop()] from [s] passes the two guards of
    lines 103 and 105 for channel [i]. *)
Definition commits (inp : input) (i : nat) (s : state) : bool :=
  commit_fires (millis inp) (reading inp i) i
    (stamp (millis inp) (reading inp i) i s).

(** Sample inputs: an erased-to-zero EEPROM, all pins at one level, and
    the button on pin [p] pressed with every other released. *)
Definition zero_eeprom : eeprom := fun _ => 0.
Definition all_pins (l : Z) : Z → Z := fun _ => l.
Definition only_pin (p : Z) : Z → Z := fun q => if q =? p then HIGH else LOW.

(** A tap of the first button, from power-on over EEPROM [e]: raw press
    at 100 ms, committed at 140 ms, raw release at 200 ms. *)
Definition tapping (e : eeprom) : state :=
  (boot e [Input 100 (only_pin 10); Input 140 (only_pin 10);
           Input 200 (all_pins LOW)]).1.

(** What every state of a run satisfies: duty values are bytes, the
    write-on-change step has caught up, and a set hold flag belongs to a
    pressed button. *)
Definition inv (s : state) : Prop :=
  wf s
  ∧ ∀ i, (i < NUM_COLORS)%nat →
      0 ≤ Values s !!! i ≤ 255
      ∧ lastValues s !!! i = Values s !!! i
      ∧ (buttonsHeld s !!! i ≠ 0 → curButtonStates s !!! i = HIGH).

(** All three buttons down from 100 ms on, over an EEPROM of 100s. *)
Definition all_down : list input :=
  [Input 100 (all_pins HIGH); Input 140 (all_pins HIGH)].

(** A channel that was cleared by a hold and is still marked held. *)
Definition cleared (i : nat) (s : state) : Prop :=
  wf s ∧ curButtonStates s !!! i = HIGH
  ∧ buttonsHeld s !!! i ≠ 0 ∧ Values s !!! i = 0.

(** The first button down from 100 ms on, over an EEPROM of 100s. *)
Definition first_down : state :=
  (boot (λ _, 100) [Input 100 (only_pin 10); Input 140 (only_pin 10)]).1.

(** A call of a tap on channel [i]: it leaves the channel stably
    pressed, with no more than 1500 ms since its last raw transition, and
    the save gesture does not fire. *)
Definition tap_call (i : nat) (inp : input) (_ s' : state) : Prop :=
  curButtonStates s' !!! i = HIGH
  ∧ elapsed (millis inp) i s' ≤ HOLD_TIME_CLEAR
  ∧ save_condition (millis inp) s' = false.

(** A pressed channel whose press has not been marked a hold. *)
Definition pressed (i : nat) (v : Z) (s : state) : Prop :=
  wf s ∧ curButtonStates s !!! i = HIGH
  ∧ buttonsHeld s !!! i = 0 ∧ Values s !!! i = v.

(** The first button as it is pressed, over an EEPROM of 240s: the raw
    press has been seen at 100 ms. *)
Definition raw_press_240 : state :=
  (boot (λ _, 240) [Input 100 (only_pin 10)]).1.

(** Channel [i] during a flicker to level [r] first seen at [t0]. *)
Definition flickering (i : nat) (L r t0 : Z) (s : state) : Prop :=
  wf s ∧ curButtonStates s !!! i = L
  ∧ lastButtonStates s !!! i = r
  ∧ lastDebounceTimes s !!! i = long_of t0.

(** The value of the last [analogWrite] to [pin] on a trace. *)
Fixpoint last_write (pin : Z) (tr : list event) : option Z :=
  match tr with
  | [] => None
  | ev :: tr' =>
      match last_write pin tr' with
      | Some v => Some v
      | None =>
          match ev with
          | AnalogWrite p v => if p =? pin then Some v else None
          | _ => None
          end
      end
  end.

(** The trace so far ends, for each output, with the write of the value
    the sketch remembers as last applied. *)
Definition tracked (s : state) (tr : list event) : Prop :=
  ∀ i, (i < NUM_COLORS)%nat →
    last_write (OUTPUTS !!! i) tr = Some (lastValues s !!! i).

(** ** Notions used in the further properties *)

(** What a call of [loop()] may do to the hardware: write a byte to one
    of the three outputs, wait for the blink delay, write a byte to one
    of the three EEPROM cells. *)
Definition loop_event (ev : event) : Prop :=
  match ev with
  | AnalogWrite p v => p ∈ OUTPUTS ∧ 0 ≤ v ≤ 255
  | Delay ms => ms = BLINK_DELAY
  | EepromWrite a v => 0 ≤ a < Z.of_nat NUM_COLORS ∧ 0 ≤ v ≤ 255
  | PinMode _ _ => False
  end.

(** The time a trace spends in [delay()], in milliseconds. *)
Fixpoint blocked (tr : list event) : Z :=
  match tr with
  | [] => 0
  | Delay ms :: tr' => ms + blocked tr'
  | _ :: tr' => blocked tr'
  end.

(** * Proofs *)

(** A first run: the three buttons tapped together from brightness 240. *)
Example boot_example :
  Values (boot (λ _, 240)
            [Input 100 (all_pins HIGH); Input 140 (all_pins HIGH);
             Input 200 (all_pins LOW); Input 240 (all_pins LOW)]).1
  = [255; 255; 255].
Proof. vm_compute. reflexivity. Qed.

(** The millisecond counter may wrap during a press. *)
Example wrap_example :
  Values (boot (λ _, 0)
            [Input 4294967290 (only_pin 11); Input 25 (only_pin 11);
             Input 30 (all_pins LOW); Input 61 (all_pins LOW)]).1
  = [0; 16; 0].
Proof. vm_compute. reflexivity. Qed.

(** ** Array bookkeeping *)

(** Projections of pairs, as rewriting rules. *)
Lemma fst_pair {A B} (x : A) (y : B) : (x, y).1 = x.
Proof. reflexivity. Qed.
Lemma snd_pair {A B} (x : A) (y : B) : (x, y).2 = y.
Proof. reflexivity. Qed.
Lemma fst_if {A B} (b : bool) (x x' : A) (y y' : B) :
  (if b then (x, y) else (x', y')).1 = if b then x else x'.
Proof. by destruct b. Qed.
Lemma snd_if {A B} (b : bool) (x x' : A) (y y' : B) :
  (if b then (x, y) else (x', y')).2 = if b then y else y'.
Proof. by destruct b. Qed.

Ltac arr :=
  repeat first
    [ rewrite list_lookup_total_insert_eq by (rewrite ?length_insert; lia)
    | rewrite list_lookup_total_insert_ne by lia
    | rewrite length_insert ].

(** The three channels, one by one. *)
Ltac channels i Hi :=
  destruct i as [|[|[|i]]]; [| | |unfold NUM_COLORS in Hi; lia].

Ltac proj :=
  cbn [Values lastValues curButtonStates lastButtonStates buttonsHeld
       lastDebounceTimes EEPROM value lastValue cur last heldFlag
       debounceTime fst snd].

Create HintDb wfdb.

Lemma wf_set_Values i v s : wf s → wf (set_Values i v s).
Proof. unfold wf, set_Values; proj; arr; auto. Qed.
Lemma wf_set_lastValues i v s : wf s → wf (set_lastValues i v s).
Proof. unfold wf, set_lastValues; proj; arr; auto. Qed.
Lemma wf_set_curButtonStates i v s : wf s → wf (set_curButtonStates i v s).
Proof. unfold wf, set_curButtonStates; proj; arr; auto. Qed.
Lemma wf_set_lastButtonStates i v s : wf s → wf (set_lastButtonStates i v s).
Proof. unfold wf, set_lastButtonStates; proj; arr; auto. Qed.
Lemma wf_set_buttonsHeld i v s : wf s → wf (set_buttonsHeld i v s).
Proof. unfold wf, set_buttonsHeld; proj; arr; auto. Qed.
Lemma wf_set_lastDebounceTimes i v s : wf s → wf (set_lastDebounceTimes i v s).
Proof. unfold wf, set_lastDebounceTimes; proj; arr; auto. Qed.
Lemma wf_set_EEPROM e s : wf s → wf (set_EEPROM e s).
Proof. unfold wf, set_EEPROM; proj; auto. Qed.

#[local] Hint Resolve wf_set_Values wf_set_lastValues wf_set_curButtonStates
  wf_set_lastButtonStates wf_set_buttonsHeld wf_set_lastDebounceTimes
  wf_set_EEPROM : wfdb.

Lemma wf_stamp ts r i s : wf s → wf (stamp ts r i s).
Proof. unfold stamp; destruct (negb _); auto with wfdb. Qed.

Lemma wf_increment i s : wf s → wf (increment i s).
Proof. unfold increment; destruct (_ =? 255); auto with wfdb. Qed.

#[local] Hint Resolve wf_stamp wf_increment : wfdb.

Lemma wf_commit ts r i s : wf s → wf (commit ts r i s).
Proof.
  unfold commit; destruct (commit_fires _ _ _ _); [|done].
  destruct (_ && _); auto with wfdb.
Qed.

Lemma wf_hold_clear ts i s : wf s → wf (hold_clear ts i s).
Proof. unfold hold_clear; destruct (hold_due _ _ _); auto with wfdb. Qed.

#[local] Hint Resolve wf_commit wf_hold_clear : wfdb.

Lemma wf_channel_body inp i s : wf s → wf (channel_body inp i s).
Proof. unfold channel_body; auto with wfdb. Qed.

#[local] Hint Resolve wf_channel_body : wfdb.

(** ** One channel at a time *)

Ltac to_view i :=
  repeat match goal with
  | |- context [Values ?s !!! i] =>
      change (Values s !!! i) with (value (view s i))
  | |- context [lastValues ?s !!! i] =>
      change (lastValues s !!! i) with (lastValue (view s i))
  | |- context [curButtonStates ?s !!! i] =>
      change (curButtonStates s !!! i) with (cur (view s i))
  | |- context [lastButtonStates ?s !!! i] =>
      change (lastButtonStates s !!! i) with (last (view s i))
  | |- context [buttonsHeld ?s !!! i] =>
      change (buttonsHeld s !!! i) with (heldFlag (view s i))
  | |- context [lastDebounceTimes ?s !!! i] =>
      change (lastDebounceTimes s !!! i) with (debounceTime (view s i))
  end.

Section Stores.
Variables (i : nat) (v : Z) (s : state).
Hypothesis Hwf : wf s.
Hypothesis Hi : (i < NUM_COLORS)%nat.

Let c := view s i.

Ltac store f :=
  destruct Hwf as (?&?&?&?&?&?); unfold NUM_COLORS in *;
  subst c; unfold view, f; proj; arr; reflexivity.

Lemma view_set_Values :
  view (set_Values i v s) i
  = Channel v (lastValue c) (cur c) (last c) (heldFlag c) (debounceTime c).
Proof. store set_Values. Qed.

Lemma view_set_lastValues :
  view (set_lastValues i v s) i
  = Channel (value c) v (cur c) (last c) (heldFlag c) (debounceTime c).
Proof. store set_lastValues. Qed.

Lemma view_set_curButtonStates :
  view (set_curButtonStates i v s) i
  = Channel (value c) (lastValue c) v (last c) (heldFlag c) (debounceTime c).
Proof. store set_curButtonStates. Qed.

Lemma view_set_lastButtonStates :
  view (set_lastButtonStates i v s) i
  = Channel (value c) (lastValue c) (cur c) v (heldFlag c) (debounceTime c).
Proof. store set_lastButtonStates. Qed.

Lemma view_set_buttonsHeld :
  view (set_buttonsHeld i v s) i
  = Channel (value c) (lastValue c) (cur c) (last c) v (debounceTime c).
Proof. store set_buttonsHeld. Qed.

Lemma view_set_lastDebounceTimes :
  view (set_lastDebounceTimes i v s) i
  = Channel (value c) (lastValue c) (cur c) (last c) (heldFlag c) v.
Proof. store set_lastDebounceTimes. Qed.
End Stores.

Ltac stores :=
  repeat first
    [ rewrite view_set_Values by auto with wfdb
    | rewrite view_set_lastValues by auto with wfdb
    | rewrite view_set_curButtonStates by auto with wfdb
    | rewrite view_set_lastButtonStates by auto with wfdb
    | rewrite view_set_buttonsHeld by auto with wfdb
    | rewrite view_set_lastDebounceTimes by auto with wfdb ];
  cbn [value lastValue cur last heldFlag debounceTime].

Section StampAndIncrement.
Variables (i : nat) (s : state).
Hypothesis Hwf : wf s.
Hypothesis Hi : (i < NUM_COLORS)%nat.

Lemma view_stamp ts r : view (stamp ts r i s) i = stamp_step ts r (view s i).
Proof.
  unfold stamp, stamp_step. to_view i.
  destruct (negb _); [|done]. by stores.
Qed.

Lemma view_increment :
  view (increment i s) i
  = Channel (bump (value (view s i))) (lastValue (view s i))
            (cur (view s i)) (last (view s i)) (heldFlag (view s i))
            (debounceTime (view s i)).
Proof.
  unfold increment, bump. to_view i.
  destruct (_ =? 255); by stores.
Qed.
End StampAndIncrement.

Section CommitAndHold.
Variables (i : nat) (s : state).
Hypothesis Hwf : wf s.
Hypothesis Hi : (i < NUM_COLORS)%nat.

Lemma view_commit ts r : view (commit ts r i s) i = commit_step ts r (view s i).
Proof.
  unfold commit, commit_step, commit_fires, fires, elapsed. to_view i.
  destruct (_ && negb _); [|done].
  stores. destruct (_ && _); stores.
  - rewrite view_increment by auto with wfdb. by stores.
  - done.
Qed.

Lemma view_hold_clear ts : view (hold_clear ts i s) i = hold_step ts (view s i).
Proof.
  unfold hold_clear, hold_step, hold_due, due, elapsed. to_view i.
  destruct (_ && _); by stores.
Qed.

End CommitAndHold.

Lemma view_channel_body inp i s :
  wf s → (i < NUM_COLORS)%nat →
  view (channel_body inp i s) i
  = channel_step (millis inp) (digitalRead inp (INPUTS !!! i)) (view s i).
Proof.
  intros Hwf Hi. unfold channel_body, channel_step. stores.
  by rewrite view_hold_clear, view_commit, view_stamp by auto with wfdb.
Qed.

(** The body of channel [i] touches no element of another channel. *)
Section OtherChannel.
Variables (i j : nat).
Hypothesis Hne : i ≠ j.

Ltac other f := intros; unfold view, f; proj; arr; reflexivity.

Lemma view_set_Values_ne v s : view (set_Values i v s) j = view s j.
Proof. other set_Values. Qed.
Lemma view_set_lastValues_ne v s : view (set_lastValues i v s) j = view s j.
Proof. other set_lastValues. Qed.
Lemma view_set_curButtonStates_ne v s :
  view (set_curButtonStates i v s) j = view s j.
Proof. other set_curButtonStates. Qed.
Lemma view_set_lastButtonStates_ne v s :
  view (set_lastButtonStates i v s) j = view s j.
Proof. other set_lastButtonStates. Qed.
Lemma view_set_buttonsHeld_ne v s :
  view (set_buttonsHeld i v s) j = view s j.
Proof. other set_buttonsHeld. Qed.
Lemma view_set_lastDebounceTimes_ne v s :
  view (set_lastDebounceTimes i v s) j = view s j.
Proof. other set_lastDebounceTimes. Qed.

Ltac others :=
  repeat (progress
    rewrite ?view_set_Values_ne, ?view_set_lastValues_ne,
      ?view_set_curButtonStates_ne, ?view_set_lastButtonStates_ne,
      ?view_set_buttonsHeld_ne, ?view_set_lastDebounceTimes_ne).

Lemma view_stamp_ne ts r s : view (stamp ts r i s) j = view s j.
Proof. unfold stamp. destruct (negb _); by others. Qed.

Lemma view_increment_ne s : view (increment i s) j = view s j.
Proof. unfold increment. cbv zeta. destruct (_ =? 255); by others. Qed.

Lemma view_commit_ne ts r s : view (commit ts r i s) j = view s j.
Proof.
  unfold commit. destruct (commit_fires _ _ _ _); [|done].
  cbv zeta. destruct (_ && _); others; rewrite ?view_increment_ne; by others.
Qed.

Lemma view_hold_clear_ne ts s : view (hold_clear ts i s) j = view s j.
Proof. unfold hold_clear. destruct (hold_due _ _ _); by others. Qed.

Lemma view_channel_body_ne inp s : view (channel_body inp i s) j = view s j.
Proof.
  unfold channel_body. cbv zeta. others.
  by rewrite view_hold_clear_ne, view_commit_ne, view_stamp_ne.
Qed.
End OtherChannel.

(** Neither does it touch the EEPROM. *)
Lemma EEPROM_channel_body inp i s : EEPROM (channel_body inp i s) = EEPROM s.
Proof.
  unfold channel_body, hold_clear, commit, increment, stamp.
  repeat (destruct (_ : bool)); reflexivity.
Qed.

(** ** The three loops of [loop()] *)

Lemma wf_check_channels inp s : wf s → wf (check_channels inp s).
Proof.
  intros. unfold check_channels, for_colors. cbn [NUM_COLORS seq foldl].
  auto with wfdb.
Qed.

Lemma EEPROM_check_channels inp s : EEPROM (check_channels inp s) = EEPROM s.
Proof.
  unfold check_channels, for_colors. cbn [NUM_COLORS seq foldl].
  by rewrite !EEPROM_channel_body.
Qed.

Lemma view_check_channels inp i s :
  wf s → (i < NUM_COLORS)%nat →
  view (check_channels inp s) i
  = channel_step (millis inp) (digitalRead inp (INPUTS !!! i)) (view s i).
Proof.
  intros Hwf Hi. unfold check_channels, for_colors.
  cbn [NUM_COLORS seq foldl].
  destruct i as [|[|[|i]]]; [| | |unfold NUM_COLORS in Hi; lia].
  - rewrite !view_channel_body_ne by lia. by apply view_channel_body.
  - rewrite view_channel_body_ne by lia.
    rewrite view_channel_body by auto with wfdb.
    by rewrite view_channel_body_ne by lia.
  - rewrite view_channel_body by auto with wfdb.
    by rewrite !view_channel_body_ne by lia.
Qed.

Lemma wf_apply_body i st : wf st.1 → wf (apply_body i st).1.
Proof.
  unfold apply_body. cbv zeta. destruct (negb _); cbn [fst]; auto with wfdb.
Qed.

Lemma view_apply_body i st :
  wf st.1 → (i < NUM_COLORS)%nat →
  view (apply_body i st).1 i = applied (view st.1 i).
Proof.
  intros Hwf Hi. unfold apply_body, applied. cbv zeta. to_view i.
  destruct (_ =? _) eqn:E; cbn [negb fst].
  - apply Z.eqb_eq in E. destruct (view st.1 i); proj; cbn [value lastValue] in E.
    by subst.
  - by stores.
Qed.

Lemma view_apply_body_ne i j st :
  i ≠ j → view (apply_body i st).1 j = view st.1 j.
Proof.
  intros. unfold apply_body. destruct (negb _); [|done].
  by apply view_set_lastValues_ne.
Qed.

Lemma EEPROM_apply_body i st : EEPROM (apply_body i st).1 = EEPROM st.1.
Proof. unfold apply_body. by destruct (negb _). Qed.

Lemma trace_apply_body i st :
  (apply_body i st).2 = st.2 ++ apply_event st.1 i.
Proof.
  unfold apply_body, apply_event. destruct (negb _); [done|].
  by rewrite app_nil_r.
Qed.

Lemma wf_apply_changes s : wf s → wf (apply_changes s).1.
Proof.
  intros. unfold apply_changes. cbn [NUM_COLORS seq foldl].
  by do 3 apply wf_apply_body.
Qed.

Lemma EEPROM_apply_changes s : EEPROM (apply_changes s).1 = EEPROM s.
Proof.
  unfold apply_changes. cbn [NUM_COLORS seq foldl].
  by rewrite !EEPROM_apply_body.
Qed.

Lemma view_apply_changes i s :
  wf s → (i < NUM_COLORS)%nat →
  view (apply_changes s).1 i = applied (view s i).
Proof.
  intros Hwf Hi. unfold apply_changes. cbn [NUM_COLORS seq foldl].
  destruct i as [|[|[|i]]]; [| | |unfold NUM_COLORS in Hi; lia].
  - rewrite !view_apply_body_ne by lia. by apply view_apply_body.
  - rewrite view_apply_body_ne by lia.
    rewrite view_apply_body by (done || by apply wf_apply_body).
    by rewrite view_apply_body_ne by lia.
  - rewrite view_apply_body by (done || by do 2 apply wf_apply_body).
    by rewrite !view_apply_body_ne by lia.
Qed.

Lemma trace_apply_changes s :
  (apply_changes s).2
  = apply_event s 0 ++ apply_event s 1 ++ apply_event s 2.
Proof.
  unfold apply_changes. cbn [NUM_COLORS seq foldl].
  rewrite !trace_apply_body. cbn [snd app fst].
  assert (E : ∀ i j st, i ≠ j →
            apply_event (apply_body i st).1 j = apply_event st.1 j).
  { intros i j st Hne. unfold apply_event.
    pose proof (view_apply_body_ne i j st Hne) as Hv.
    injection Hv as -> -> _ _ _ _. done. }
  rewrite !E by lia. cbn [fst]. by rewrite <- !app_assoc.
Qed.

(** ** The save gesture *)

Lemma SaveState_eq s :
  SaveState s = (set_EEPROM (saved_eeprom s) s, save_events s).
Proof. reflexivity. Qed.

Lemma wf_all_held s : wf s → wf (all_held s).
Proof. unfold all_held. auto with wfdb. Qed.

Lemma view_all_held i s :
  wf s → (i < NUM_COLORS)%nat →
  view (all_held s) i
  = let c := view s i in
    Channel (value c) (lastValue c) (cur c) (last c) 1 (debounceTime c).
Proof.
  intros Hwf Hi. unfold all_held.
  destruct i as [|[|[|i]]]; [| | |unfold NUM_COLORS in Hi; lia].
  - stores. rewrite !view_set_buttonsHeld_ne by lia. done.
  - rewrite view_set_buttonsHeld_ne by lia. stores.
    rewrite !view_set_buttonsHeld_ne by lia. done.
  - rewrite !view_set_buttonsHeld_ne by lia. by stores.
Qed.

Lemma save_gesture_eq ts s :
  save_gesture ts s
  = if save_condition ts s
    then (set_EEPROM (saved_eeprom s) (all_held s), blink s ++ save_events s)
    else (s, []).
Proof. reflexivity. Qed.

Lemma save_condition_views ts s :
  save_condition ts s
  = holding ts (view s 0) && holding ts (view s 1) && holding ts (view s 2).
Proof.
  unfold save_condition, holding, elapsed, view; proj.
  repeat (destruct (_ =? HIGH)); repeat (destruct (_ <? _)); reflexivity.
Qed.

(** ** One call of [loop()] *)

Lemma saving_views inp s :
  wf s →
  saving inp s
  = holding (millis inp) (stepped inp s 0)
    && holding (millis inp) (stepped inp s 1)
    && holding (millis inp) (stepped inp s 2).
Proof.
  intros Hwf. unfold saving. rewrite save_condition_views.
  by rewrite !view_check_channels by (done || unfold NUM_COLORS; lia).
Qed.

Lemma save_condition_apply_changes ts s :
  wf s → save_condition ts (apply_changes s).1 = save_condition ts s.
Proof.
  intros Hwf. rewrite !save_condition_views.
  by rewrite !view_apply_changes by (done || unfold NUM_COLORS; lia).
Qed.

Lemma saving_eq inp s :
  save_condition (millis inp) (check_channels inp s) = saving inp s.
Proof. reflexivity. Qed.

Lemma stepped_eq inp s i :
  channel_step (millis inp) (digitalRead inp (INPUTS !!! i)) (view s i)
  = stepped inp s i.
Proof. reflexivity. Qed.

Lemma loop_unfold inp s :
  loop inp s
  = ((save_gesture (millis inp) (apply_changes (check_channels inp s)).1).1,
     (apply_changes (check_channels inp s)).2
     ++ (save_gesture (millis inp) (apply_changes (check_channels inp s)).1).2).
Proof. reflexivity. Qed.

Lemma loop_eq inp s :
  wf s →
  loop inp s
  = (if saving inp s
     then set_EEPROM (saved_eeprom (checked inp s)) (all_held (checked inp s))
     else checked inp s,
     (apply_event (check_channels inp s) 0
      ++ apply_event (check_channels inp s) 1
      ++ apply_event (check_channels inp s) 2)
     ++ (if saving inp s
         then blink (checked inp s) ++ save_events (checked inp s)
         else [])).
Proof.
  intros Hwf. rewrite loop_unfold, save_gesture_eq.
  rewrite save_condition_apply_changes by by apply wf_check_channels.
  rewrite saving_eq, trace_apply_changes, fst_if, snd_if.
  reflexivity.
Qed.

Lemma view_set_EEPROM e s i : view (set_EEPROM e s) i = view s i.
Proof. reflexivity. Qed.

Lemma wf_checked inp s : wf s → wf (checked inp s).
Proof. intros. by apply wf_apply_changes, wf_check_channels. Qed.

Lemma view_checked inp i s :
  wf s → (i < NUM_COLORS)%nat →
  view (checked inp s) i = applied (stepped inp s i).
Proof.
  intros Hwf Hi.
  rewrite view_apply_changes, view_check_channels by
    (done || by apply wf_check_channels).
  by rewrite stepped_eq.
Qed.

Lemma EEPROM_checked inp s : EEPROM (checked inp s) = EEPROM s.
Proof.
  by rewrite EEPROM_apply_changes, EEPROM_check_channels.
Qed.

Lemma view_if (b : bool) s s' i :
  view (if b then s else s') i = if b then view s i else view s' i.
Proof. by destruct b. Qed.

Lemma wf_if (b : bool) s s' : wf s → wf s' → wf (if b then s else s').
Proof. by destruct b. Qed.

Lemma wf_loop inp s : wf s → wf (loop inp s).1.
Proof.
  intros Hwf. rewrite loop_eq, fst_pair by done.
  pose proof (wf_checked inp s Hwf).
  apply wf_if; [|assumption].
  by apply wf_set_EEPROM, wf_all_held.
Qed.

Lemma view_loop inp i s :
  wf s → (i < NUM_COLORS)%nat →
  view (loop inp s).1 i
  = Channel (value (stepped inp s i)) (value (stepped inp s i))
            (cur (stepped inp s i)) (last (stepped inp s i))
            (if saving inp s then 1 else heldFlag (stepped inp s i))
            (debounceTime (stepped inp s i)).
Proof.
  intros Hwf Hi. rewrite loop_eq, fst_pair by done.
  pose proof (wf_checked inp s Hwf) as Hwf1.
  rewrite view_if, view_set_EEPROM.
  rewrite view_all_held, view_checked by done.
  generalize (saving inp s), (stepped inp s i). by intros [] [].
Qed.

Lemma EEPROM_loop inp s :
  wf s →
  EEPROM (loop inp s).1
  = if saving inp s then saved_eeprom (checked inp s) else EEPROM s.
Proof.
  intros Hwf. rewrite loop_eq, fst_pair by done.
  rewrite <- (EEPROM_checked inp s).
  generalize (saving inp s), (checked inp s). by intros [] ?.
Qed.

(** ** Runs *)

Lemma run_cons inp ins s :
  run (inp :: ins) s
  = ((run ins (loop inp s).1).1, (loop inp s).2 ++ (run ins (loop inp s).1).2).
Proof. reflexivity. Qed.

Lemma run_nil s : run [] s = (s, []).
Proof. reflexivity. Qed.

Lemma run_app ins ins' s :
  run (ins ++ ins') s
  = ((run ins' (run ins s).1).1, (run ins s).2 ++ (run ins' (run ins s).1).2).
Proof.
  revert s. induction ins as [|inp ins IH]; intros s.
  - rewrite app_nil_l, run_nil, fst_pair, snd_pair, app_nil_l.
    by destruct (run ins' s).
  - rewrite <- app_comm_cons, !run_cons, IH, !fst_pair, !snd_pair.
    by rewrite app_assoc.
Qed.

Lemma wf_run ins s : wf s → wf (run ins s).1.
Proof.
  revert s. induction ins as [|inp ins IH]; intros s Hwf.
  - by rewrite run_nil, fst_pair.
  - rewrite run_cons, fst_pair. by apply IH, wf_loop.
Qed.

(** ** Machine arithmetic *)

Lemma ulong_sub_long ts t : ulong_of (ts - long_of t) = ulong_of (ts - t).
Proof.
  unfold ulong_of, long_of.
  pose proof (Z.div_mod (t + 2 ^ 31) (2 ^ 32) ltac:(lia)) as E.
  replace (ts - ((t + 2 ^ 31) mod 2 ^ 32 - 2 ^ 31))
    with (ts - t + (t + 2 ^ 31) / 2 ^ 32 * 2 ^ 32) by lia.
  apply Z_mod_plus_full.
Qed.

Lemma ulong_sub_self ts : ulong_of (ts - long_of ts) = 0.
Proof. rewrite ulong_sub_long, Z.sub_diag. reflexivity. Qed.

Lemma ulong_range z : 0 ≤ ulong_of z < 2 ^ 32.
Proof. apply Z.mod_pos_bound. lia. Qed.

Lemma ulong_debounceDelay : ulong_of debounceDelay = 30.
Proof. reflexivity. Qed.
Lemma ulong_HOLD_TIME_CLEAR : ulong_of HOLD_TIME_CLEAR = 1500.
Proof. reflexivity. Qed.
Lemma ulong_HOLD_TIME_SAVE : ulong_of HOLD_TIME_SAVE = 1000.
Proof. reflexivity. Qed.

Lemma uint8_small v : 0 ≤ v ≤ 255 → uint8_of v = v.
Proof. intros. apply Z.mod_small. lia. Qed.

Lemma uint8_range v : 0 ≤ uint8_of v ≤ 255.
Proof.
  unfold uint8_of. pose proof (Z.mod_pos_bound v (2 ^ 8) ltac:(lia)). lia.
Qed.

(** The increment of lines 110-115 in plain arithmetic. *)
Lemma bump_spec v :
  0 ≤ v ≤ 255 →
  bump v = if v =? 255 then 0 else Z.min (v + 16) 255.
Proof.
  intros Hv. unfold bump, min_macro, PWM_INCREMENT.
  destruct (Z.eqb_spec v 255) as [->|Hne]; [reflexivity|].
  assert (int_of (v + 16) = v + 16) as ->.
  { unfold int_of. rewrite Z.mod_small; lia. }
  destruct (Z.ltb_spec (v + 16) 255); lia.
Qed.

Lemma bump_range v : 0 ≤ v ≤ 255 → 0 ≤ bump v ≤ 255.
Proof.
  intros Hv. rewrite bump_spec by done.
  destruct (v =? 255); lia.
Qed.

(** ** The state machine of one channel *)

Ltac bools :=
  repeat match goal with
  | H : (_ =? _) = true |- _ => apply Z.eqb_eq in H
  | H : (_ =? _) = false |- _ => apply Z.eqb_neq in H
  | H : (_ <? _) = true |- _ => apply Z.ltb_lt in H
  | H : (_ <? _) = false |- _ => apply Z.ltb_ge in H
  | H : negb _ = true |- _ => apply negb_true_iff in H
  | H : negb _ = false |- _ => apply negb_false_iff in H
  | H : _ && _ = true |- _ => apply andb_true_iff in H; destruct H
  | H : _ && _ = false |- _ => apply andb_false_iff in H; destruct H
  end.

Ltac eqbs :=
  repeat match goal with
  | |- context [?a =? ?b] => destruct (Z.eqb_spec a b)
  end;
  cbn [andb negb].

Ltac chan :=
  cbn [value lastValue cur last heldFlag debounceTime] in *.

(** Case analysis on the three guards of one pass of the body. *)
Ltac step_cases c :=
  destruct c as [v lv cu la h t];
  unfold channel_step, stamp_step; chan;
  destruct (negb _) eqn:?;
  unfold commit_step, fires; chan;
  destruct (_ && negb _) eqn:?;
  unfold hold_step, due; chan;
  destruct (_ && (_ <? _)) eqn:?;
  chan; bools;
  rewrite ?ulong_debounceDelay, ?ulong_HOLD_TIME_CLEAR in *;
  unfold LOW, HIGH in *.

Section ChannelStep.
Variables (ts r : Z) (c : channel).

Let c' := channel_step ts r c.

Lemma step_last : last c' = r.
Proof. reflexivity. Qed.

Lemma step_lastValue : lastValue c' = lastValue c.
Proof. subst c'. step_cases c; reflexivity. Qed.

Lemma step_debounceTime :
  debounceTime c' = if r =? last c then debounceTime c else long_of ts.
Proof.
  subst c'. step_cases c; destruct (Z.eqb_spec r la); congruence.
Qed.

(** The time the guards of the pass compare with their thresholds. *)
Lemma step_elapsed :
  ulong_of (ts - debounceTime c')
  = if r =? last c then ulong_of (ts - debounceTime c) else 0.
Proof.
  rewrite step_debounceTime. destruct (r =? last c); [done|].
  apply ulong_sub_self.
Qed.

(** No commit without a reading that differs from the stable state. *)
Lemma step_cur_same : r = cur c → cur c' = cur c.
Proof. subst c'. step_cases c; intros; congruence. Qed.

(** No commit before [debounceDelay] has passed. *)
Lemma step_cur_early : ulong_of (ts - debounceTime c') ≤ 30 → cur c' = cur c.
Proof. subst c'. step_cases c; intros; first [reflexivity | lia]. Qed.

(** A changed stable state is the reading. *)
Lemma step_cur_changed : cur c' ≠ cur c → cur c' = r.
Proof. subst c'. step_cases c; intros; congruence. Qed.

(** While released and reading released, nothing moves. *)
Lemma step_idle :
  r = cur c → cur c ≠ HIGH →
  value c' = value c ∧ heldFlag c' = heldFlag c.
Proof. subst c'. step_cases c; intros; first [done | lia | congruence]. Qed.

(** The three things that can happen to the brightness. *)
Lemma step_value :
  value c' = value c ∨ value c' = bump (value c) ∨ value c' = 0.
Proof.
  subst c'. step_cases c; try destruct (_ && _); auto.
Qed.

(** The hold rule, read on the state the pass leaves. *)
Lemma step_hold :
  cur c' = HIGH → 1500 < ulong_of (ts - debounceTime c') →
  value c' = 0 ∧ heldFlag c' = 1.
Proof. subst c'. step_cases c; intros; first [done | lia]. Qed.

(** A pass that leaves the button pressed, not yet held long. *)
Lemma step_pressed :
  cur c' = HIGH → ulong_of (ts - debounceTime c') ≤ 1500 →
  cur c ≠ HIGH ∨ heldFlag c = 0 →
  value c' = value c ∧ heldFlag c' = 0.
Proof.
  subst c'. step_cases c; intros ? ? [?|?];
    first [done | lia | congruence | idtac].
  all: eqbs; first [done | lia].
Qed.

(** The commit of a release after a press that was not a hold. *)
Lemma step_release :
  cur c = HIGH → heldFlag c = 0 → cur c' = LOW →
  value c' = bump (value c) ∧ heldFlag c' = 0.
Proof.
  subst c'. step_cases c; intros; subst; first [done | lia | idtac].
Qed.

(** Once marked held, a cleared channel stays cleared. *)
Lemma step_held :
  heldFlag c ≠ 0 → value c = 0 → value c' = 0.
Proof.
  subst c'. step_cases c; intros; subst; try done.
  all: eqbs; first [done | lia].
Qed.

Lemma step_held_pressed :
  heldFlag c ≠ 0 → cur c = HIGH → cur c' = HIGH → heldFlag c' ≠ 0.
Proof. subst c'. step_cases c; intros; subst; first [done | lia]. Qed.

(** A set flag belongs to a pressed button. *)
Lemma step_held_inv :
  (heldFlag c ≠ 0 → cur c = HIGH) → heldFlag c' ≠ 0 → cur c' = HIGH.
Proof. subst c'. step_cases c; intros; first [done | lia | auto]. Qed.

Lemma step_range : 0 ≤ value c ≤ 255 → 0 ≤ value c' ≤ 255.
Proof.
  intros Hv. pose proof (bump_range _ Hv).
  destruct step_value as [E|[E|E]]; subst c'; rewrite E; lia.
Qed.
End ChannelStep.

(** ** One call of [loop()], channel by channel *)

Lemma value_view s i : Values s !!! i = value (view s i).
Proof. reflexivity. Qed.
Lemma lastValue_view s i : lastValues s !!! i = lastValue (view s i).
Proof. reflexivity. Qed.
Lemma cur_view s i : curButtonStates s !!! i = cur (view s i).
Proof. reflexivity. Qed.
Lemma last_view s i : lastButtonStates s !!! i = last (view s i).
Proof. reflexivity. Qed.
Lemma heldFlag_view s i : buttonsHeld s !!! i = heldFlag (view s i).
Proof. reflexivity. Qed.
Lemma debounceTime_view s i : lastDebounceTimes s !!! i = debounceTime (view s i).
Proof. reflexivity. Qed.
Lemma elapsed_view ts s i : elapsed ts i s = ulong_of (ts - debounceTime (view s i)).
Proof. reflexivity. Qed.

Section LoopChannel.
Variables (inp : input) (s : state) (i : nat).
Hypothesis Hwf : wf s.
Hypothesis Hi : (i < NUM_COLORS)%nat.

Let s' := (loop inp s).1.
Let c' := stepped inp s i.

Lemma loop_Values : Values s' !!! i = value c'.
Proof. subst s' c'. by rewrite value_view, view_loop. Qed.

Lemma loop_lastValues : lastValues s' !!! i = value c'.
Proof. subst s' c'. by rewrite lastValue_view, view_loop. Qed.

Lemma loop_cur : curButtonStates s' !!! i = cur c'.
Proof. subst s' c'. by rewrite cur_view, view_loop. Qed.

Lemma loop_last : lastButtonStates s' !!! i = reading inp i.
Proof. subst s' c'. by rewrite last_view, view_loop. Qed.

Lemma loop_held :
  buttonsHeld s' !!! i = if saving inp s then 1 else heldFlag c'.
Proof. subst s' c'. by rewrite heldFlag_view, view_loop. Qed.

Lemma loop_debounceTime : lastDebounceTimes s' !!! i = debounceTime c'.
Proof. subst s' c'. by rewrite debounceTime_view, view_loop. Qed.

Lemma loop_elapsed ts : elapsed ts i s' = ulong_of (ts - debounceTime c').
Proof. subst s' c'. by rewrite elapsed_view, view_loop. Qed.
End LoopChannel.

Lemma loop_save_condition inp s :
  wf s → save_condition (millis inp) (loop inp s).1 = saving inp s.
Proof.
  intros Hwf. rewrite save_condition_views, saving_views by done.
  rewrite !view_loop by (done || unfold NUM_COLORS; lia).
  reflexivity.
Qed.

(** ** Properties of runs *)

Lemma along_inv (I : state → Prop) (G : input → Prop) P ins s :
  (∀ inp s, I s → G inp → P inp s (loop inp s).1 ∧ I (loop inp s).1) →
  I s → Forall G ins → along P ins s.
Proof.
  intros Hstep. revert s.
  induction ins as [|inp ins IH]; intros s Hs Hall; [exact Logic.I|].
  inversion Hall as [|? ? Hg Hrest]; subst.
  destruct (Hstep inp s Hs Hg) as [HP HI].
  split; [exact HP|]. by apply IH.
Qed.

Lemma along_impl (P Q : input → state → state → Prop) ins s :
  (∀ inp s s', P inp s s' → Q inp s s') → along P ins s → along Q ins s.
Proof.
  intros HPQ. revert s.
  induction ins as [|inp ins IH]; intros s; [done|].
  intros [H1 H2]. split; [by apply HPQ|by apply IH].
Qed.

Lemma commits_view inp i s :
  wf s → (i < NUM_COLORS)%nat →
  commits inp i s
  = fires (millis inp) (reading inp i)
      (stamp_step (millis inp) (reading inp i) (view s i)).
Proof.
  intros Hwf Hi. unfold commits, commit_fires, fires.
  by rewrite elapsed_view, cur_view, view_stamp.
Qed.

Lemma commits_same inp i s :
  wf s → (i < NUM_COLORS)%nat →
  reading inp i = curButtonStates s !!! i → commits inp i s = false.
Proof.
  intros Hwf Hi Hr. rewrite commits_view by done.
  rewrite cur_view in Hr. revert Hr.
  generalize (reading inp i), (millis inp), (view s i).
  intros r ts [v lv cu la h t]. unfold fires, stamp_step; chan.
  intros ->. destruct (negb _); chan; rewrite Z.eqb_refl; apply andb_false_r.
Qed.

(** The guards are evaluated on what the bodies of the earlier channels
    left, which is what [s] has for channel [i]. *)
Lemma commits_in_loop inp i s :
  wf s → (i < NUM_COLORS)%nat →
  commits inp i (foldl (λ s k, channel_body inp k s) s (seq 0 i))
  = commits inp i s.
Proof.
  intros Hwf Hi. rewrite !commits_view; try done.
  - channels i Hi; cbn [seq foldl];
      by rewrite ?view_channel_body_ne by lia.
  - channels i Hi; cbn [seq foldl]; auto with wfdb.
Qed.

(** What a commit does to the stable state. *)
Lemma loop_cur_commits inp i s :
  wf s → (i < NUM_COLORS)%nat →
  curButtonStates (loop inp s).1 !!! i
  = if commits inp i s then reading inp i else curButtonStates s !!! i.
Proof.
  intros Hwf Hi. rewrite loop_cur, commits_view, cur_view by done.
  unfold stepped.
  generalize (reading inp i), (millis inp), (view s i).
  intros r ts [v lv cu la h t].
  unfold channel_step, hold_step, commit_step; chan.
  destruct (fires _ _ _); destruct (due _ _); chan; try reflexivity.
  all: unfold stamp_step; chan; by destruct (negb _).
Qed.

(** C9: once a commit has made the stable state of a channel equal to the
    raw reading, the calls of [loop()] during which the reading stays the
    same perform no commit on that channel and leave its stable state
    alone; after the commit of a release they leave its brightness where
    that commit put it, however many they are. *)
Theorem no_commit_while_reading_unchanged s0 inp0 i ins :
  wf s0 → (i < NUM_COLORS)%nat →
  commits inp0 i s0 = true →
  Forall (λ inp, reading inp i = reading inp0 i) ins →
  let s := (loop inp0 s0).1 in
  curButtonStates s !!! i = reading inp0 i
  ∧ along (λ inp s1 s2,
        commits inp i s1 = false
        ∧ curButtonStates s2 !!! i = reading inp0 i
        ∧ (reading inp0 i = LOW → Values s2 !!! i = Values s !!! i)) ins s.
Proof.
  intros Hwf Hi Hc Hall s.
  assert (Hs : curButtonStates s !!! i = reading inp0 i).
  { subst s. by rewrite loop_cur_commits, Hc by done. }
  split; [exact Hs|].
  apply along_inv with
    (I := λ s1, wf s1 ∧ curButtonStates s1 !!! i = reading inp0 i
                ∧ (reading inp0 i = LOW → Values s1 !!! i = Values s !!! i))
    (G := λ inp, reading inp i = reading inp0 i);
    [|split; [by apply wf_loop|done]|done].
  clear Hall. intros inp s1 (Hwf1 & Hcur & Hval) Hr.
  assert (Hsame : reading inp i = cur (view s1 i))
    by (by rewrite <- cur_view, Hcur).
  assert (Hcur' : curButtonStates (loop inp s1).1 !!! i = reading inp0 i).
  { rewrite loop_cur by done. unfold stepped.
    by rewrite step_cur_same, <- cur_view. }
  assert (Hval' : reading inp0 i = LOW →
                  Values (loop inp s1).1 !!! i = Values s !!! i).
  { intros Hlow. rewrite loop_Values by done. unfold stepped.
    destruct (step_idle (millis inp) (reading inp i) (view s1 i)) as [-> _];
      [done| |by rewrite <- value_view; auto].
    rewrite <- cur_view, Hcur, Hlow. done. }
  pose proof (wf_loop inp s1 Hwf1).
  split; [split; [|done]|done].
  apply commits_same; [done..|]. by rewrite Hcur.
Qed.

Lemma wf_power_on e : wf (power_on e).
Proof. by repeat split. Qed.

Lemma wf_LoadState s : wf s → wf (LoadState s).
Proof.
  intros. unfold LoadState, for_colors. cbn [NUM_COLORS seq foldl].
  unfold LoadState_body. auto 10 with wfdb.
Qed.

Lemma setup_state s : (setup s).1 = LoadState s.
Proof. reflexivity. Qed.

Lemma wf_setup s : wf s → wf (setup s).1.
Proof. intros. rewrite setup_state. by apply wf_LoadState. Qed.

Lemma boot_eq e ins :
  boot e ins
  = ((run ins (setup (power_on e)).1).1,
     (setup (power_on e)).2 ++ (run ins (setup (power_on e)).1).2).
Proof. reflexivity. Qed.

Lemma wf_boot e ins : wf (boot e ins).1.
Proof.
  rewrite boot_eq, fst_pair. apply wf_run, wf_setup, wf_power_on.
Qed.

Lemma no_commit_while_reading_unchanged_witness :
  let s0 := tapping zero_eeprom in
  let inp0 := Input 240 (all_pins LOW) in
  let s := (loop inp0 s0).1 in
  commits inp0 0 s0 = true
  ∧ curButtonStates s !!! 0%nat = reading inp0 0
  ∧ along (λ inp s1 s2,
        commits inp 0 s1 = false
        ∧ curButtonStates s2 !!! 0%nat = reading inp0 0
        ∧ (reading inp0 0 = LOW → Values s2 !!! 0%nat = Values s !!! 0%nat))
      [Input 250 (all_pins LOW); Input 9000 (all_pins LOW)] s.
Proof.
  intros s0 inp0 s.
  assert (Hc : commits inp0 0 s0 = true) by (vm_compute; reflexivity).
  split; [exact Hc|].
  apply (no_commit_while_reading_unchanged s0 inp0 0
           [Input 250 (all_pins LOW); Input 9000 (all_pins LOW)]).
  - apply wf_boot.
  - unfold NUM_COLORS; lia.
  - exact Hc.
  - repeat constructor.
Defined.

(** ** Invariants of the running sketch *)

Lemma LoadState_power_on e :
  LoadState (power_on e)
  = State [EEPROM_read e 0; EEPROM_read e 1; EEPROM_read e 2]
          [EEPROM_read e 0; EEPROM_read e 1; EEPROM_read e 2]
          [LOW; 0; 0] [LOW; 0; 0] [0; 0; 0] [0; 0; 0] e.
Proof. reflexivity. Qed.

Lemma inv_setup e : inv (setup (power_on e)).1.
Proof.
  split; [apply wf_setup, wf_power_on|].
  rewrite setup_state, LoadState_power_on. intros i Hi.
  channels i Hi; proj; cbn [lookup_total list_lookup_total];
    (split; [apply uint8_range|by split]).
Qed.

Lemma inv_loop inp s : inv s → inv (loop inp s).1.
Proof.
  intros [Hwf Hinv]. split; [by apply wf_loop|].
  intros i Hi. destruct (Hinv i Hi) as (Hv & _ & Hh).
  rewrite loop_Values, loop_lastValues, loop_held, loop_cur by done.
  split; [|split; [reflexivity|]].
  - unfold stepped. apply step_range. by rewrite <- value_view.
  - intros Hne. destruct (saving inp s) eqn:Hs.
    + rewrite saving_views in Hs by done. unfold holding in Hs. bools.
      by channels i Hi.
    + revert Hne. unfold stepped. apply step_held_inv.
      by rewrite <- heldFlag_view, <- cur_view.
Qed.

Lemma inv_run ins s : inv s → inv (run ins s).1.
Proof.
  revert s. induction ins as [|inp ins IH]; intros s Hs.
  - by rewrite run_nil, fst_pair.
  - rewrite run_cons, fst_pair. by apply IH, inv_loop.
Qed.

Lemma inv_boot e ins : inv (boot e ins).1.
Proof. rewrite boot_eq, fst_pair. apply inv_run, inv_setup. Qed.

(** ** Persistence *)

Lemma read_saved_eeprom s :
  EEPROM_read (saved_eeprom s) 0 = uint8_of (Values s !!! 0%nat)
  ∧ EEPROM_read (saved_eeprom s) 1 = uint8_of (Values s !!! 1%nat)
  ∧ EEPROM_read (saved_eeprom s) 2 = uint8_of (Values s !!! 2%nat).
Proof.
  unfold EEPROM_read, saved_eeprom, EEPROM_write. cbn [Z.eqb Pos.eqb].
  unfold uint8_of. by rewrite !Z.mod_mod by lia.
Qed.

(** C6: saving a triple of bytes and then loading it after a restart
    (the globals back at their initialisers, the EEPROM kept) gives the
    three channels the saved values, as brightness and as last applied
    brightness. *)
Theorem save_load_roundtrip v0 v1 v2 s :
  Values s = [v0; v1; v2] →
  0 ≤ v0 ≤ 255 → 0 ≤ v1 ≤ 255 → 0 ≤ v2 ≤ 255 →
  let e := EEPROM (SaveState s).1 in
  Values (LoadState (power_on e)) = [v0; v1; v2]
  ∧ lastValues (LoadState (power_on e)) = [v0; v1; v2]
  ∧ Values (setup (power_on e)).1 = [v0; v1; v2].
Proof.
  intros Hs H0 H1 H2 e. subst e.
  rewrite SaveState_eq, fst_pair, setup_state, LoadState_power_on.
  change (EEPROM (set_EEPROM ?e s)) with e. proj.
  destruct (read_saved_eeprom s) as (-> & -> & ->).
  rewrite Hs. cbn [lookup_total list_lookup_total].
  by rewrite !uint8_small by done.
Qed.

Lemma save_load_roundtrip_witness :
  let s := State [240; 0; 255] [0; 0; 0] [1; 1; 1] [1; 1; 1] [0; 0; 0]
                 [0; 0; 0] zero_eeprom in
  let e := EEPROM (SaveState s).1 in
  Values (LoadState (power_on e)) = [240; 0; 255]
  ∧ lastValues (LoadState (power_on e)) = [240; 0; 255]
  ∧ Values (setup (power_on e)).1 = [240; 0; 255].
Proof.
  intros s. apply (save_load_roundtrip 240 0 255 s); [reflexivity|lia..].
Defined.

(** ** The save gesture *)

Lemma Values_loop_checked inp s :
  wf s → Values (loop inp s).1 = Values (checked inp s).
Proof.
  intros Hwf. rewrite loop_eq, fst_pair by done.
  generalize (saving inp s), (checked inp s). by intros [] ?.
Qed.

Lemma blink_eq s :
  blink s
  = [AnalogWrite 3 0; AnalogWrite 5 0; AnalogWrite 6 0; Delay 100;
     AnalogWrite 3 (Values s !!! 0%nat); AnalogWrite 5 (Values s !!! 1%nat);
     AnalogWrite 6 (Values s !!! 2%nat); Delay 100;
     AnalogWrite 3 0; AnalogWrite 5 0; AnalogWrite 6 0; Delay 100;
     AnalogWrite 3 (Values s !!! 0%nat); AnalogWrite 5 (Values s !!! 1%nat);
     AnalogWrite 6 (Values s !!! 2%nat)].
Proof. reflexivity. Qed.

Lemma saving_intro inp s :
  wf s →
  (∀ k, (k < NUM_COLORS)%nat →
     curButtonStates (loop inp s).1 !!! k = HIGH
     ∧ HOLD_TIME_SAVE < elapsed (millis inp) k (loop inp s).1) →
  saving inp s = true.
Proof.
  intros Hwf H. rewrite <- loop_save_condition by done.
  unfold save_condition. rewrite ulong_HOLD_TIME_SAVE.
  destruct (H 0%nat ltac:(unfold NUM_COLORS; lia)) as [-> ?%Z.ltb_lt].
  destruct (H 1%nat ltac:(unfold NUM_COLORS; lia)) as [-> ?%Z.ltb_lt].
  destruct (H 2%nat ltac:(unfold NUM_COLORS; lia)) as [-> ?%Z.ltb_lt].
  unfold HOLD_TIME_SAVE in *.
  repeat (apply andb_true_intro; split); done.
Qed.

(** C3: on a call of [loop()] that leaves all three stable states
    pressed with more than 1000 ms since each channel's last raw
    transition, the trace of the call ends with the blink (outputs to 0,
    100 ms, to the brightness values, 100 ms, to 0, 100 ms, to the
    brightness values) followed by the writes of the three brightness
    values to EEPROM cells 0, 1, 2 in that order; the call leaves the
    three hold flags set and the three values readable from the EEPROM. *)
Theorem save_gesture_acknowledged e ins inp :
  let s := (boot e ins).1 in
  let s' := (loop inp s).1 in
  (∀ k, (k < NUM_COLORS)%nat →
     curButtonStates s' !!! k = HIGH
     ∧ HOLD_TIME_SAVE < elapsed (millis inp) k s') →
  let v0 := Values s' !!! 0%nat in
  let v1 := Values s' !!! 1%nat in
  let v2 := Values s' !!! 2%nat in
  (loop inp s).2
  = (apply_changes (check_channels inp s)).2
    ++ [AnalogWrite 3 0; AnalogWrite 5 0; AnalogWrite 6 0; Delay 100;
        AnalogWrite 3 v0; AnalogWrite 5 v1; AnalogWrite 6 v2; Delay 100;
        AnalogWrite 3 0; AnalogWrite 5 0; AnalogWrite 6 0; Delay 100;
        AnalogWrite 3 v0; AnalogWrite 5 v1; AnalogWrite 6 v2;
        EepromWrite 0 v0; EepromWrite 1 v1; EepromWrite 2 v2]
  ∧ (∀ k, (k < NUM_COLORS)%nat → buttonsHeld s' !!! k = 1)
  ∧ EEPROM_read (EEPROM s') 0 = v0
  ∧ EEPROM_read (EEPROM s') 1 = v1
  ∧ EEPROM_read (EEPROM s') 2 = v2.
Proof.
  intros s s' Hheld v0 v1 v2.
  pose proof (inv_boot e ins) as [Hwf _]. fold s in Hwf.
  pose proof (inv_loop inp s (inv_boot e ins)) as [_ Hinv']. fold s' in Hinv'.
  pose proof (saving_intro inp s Hwf Hheld) as Hsave.
  assert (R0 : uint8_of v0 = v0)
    by (apply uint8_small, Hinv'; unfold NUM_COLORS; lia).
  assert (R1 : uint8_of v1 = v1)
    by (apply uint8_small, Hinv'; unfold NUM_COLORS; lia).
  assert (R2 : uint8_of v2 = v2)
    by (apply uint8_small, Hinv'; unfold NUM_COLORS; lia).
  assert (HV : Values s' = Values (checked inp s))
    by (by apply Values_loop_checked).
  split; [|split].
  - rewrite loop_eq, snd_pair, Hsave, <- trace_apply_changes by done.
    f_equal. rewrite blink_eq. unfold save_events.
    rewrite <- HV. fold v0 v1 v2. by rewrite R0, R1, R2.
  - intros k Hk. subst s'. by rewrite loop_held, Hsave.
  - subst s'. rewrite EEPROM_loop, Hsave by done.
    destruct (read_saved_eeprom (checked inp s)) as (-> & -> & ->).
    rewrite <- HV. fold v0 v1 v2. by rewrite R0, R1, R2.
Qed.

Lemma save_gesture_acknowledged_witness :
  let s := (boot (λ _, 100) all_down).1 in
  let inp := Input 1200 (all_pins HIGH) in
  let s' := (loop inp s).1 in
  (loop inp s).2
  = (apply_changes (check_channels inp s)).2
    ++ [AnalogWrite 3 0; AnalogWrite 5 0; AnalogWrite 6 0; Delay 100;
        AnalogWrite 3 (Values s' !!! 0%nat);
        AnalogWrite 5 (Values s' !!! 1%nat);
        AnalogWrite 6 (Values s' !!! 2%nat); Delay 100;
        AnalogWrite 3 0; AnalogWrite 5 0; AnalogWrite 6 0; Delay 100;
        AnalogWrite 3 (Values s' !!! 0%nat);
        AnalogWrite 5 (Values s' !!! 1%nat);
        AnalogWrite 6 (Values s' !!! 2%nat);
        EepromWrite 0 (Values s' !!! 0%nat);
        EepromWrite 1 (Values s' !!! 1%nat);
        EepromWrite 2 (Values s' !!! 2%nat)]
  ∧ (∀ k, (k < NUM_COLORS)%nat → buttonsHeld s' !!! k = 1)
  ∧ EEPROM_read (EEPROM s') 0 = Values s' !!! 0%nat
  ∧ EEPROM_read (EEPROM s') 1 = Values s' !!! 1%nat
  ∧ EEPROM_read (EEPROM s') 2 = Values s' !!! 2%nat.
Proof.
  intros s inp s'.
  apply (save_gesture_acknowledged (λ _, 100) all_down inp).
  intros k Hk. channels k Hk; vm_compute; split; reflexivity.
Defined.

(** ** Hold-clear *)

Lemma along_run_inv (J : state → Prop) (P : input → state → state → Prop)
    ins s :
  (∀ inp s, J s → P inp s (loop inp s).1 → J (loop inp s).1) →
  J s → along P ins s → J (run ins s).1.
Proof.
  intros Hstep. revert s.
  induction ins as [|inp ins IH]; intros s Hs Hal.
  - by rewrite run_nil, fst_pair.
  - destruct Hal as [HP Hal]. rewrite run_cons, fst_pair.
    apply IH; [|done]. by apply Hstep.
Qed.

Lemma cleared_loop inp i s :
  (i < NUM_COLORS)%nat →
  cleared i s → curButtonStates (loop inp s).1 !!! i = HIGH →
  cleared i (loop inp s).1.
Proof.
  intros Hi (Hwf & Hc & Hh & Hv) Hc'.
  rewrite loop_cur in Hc' by done.
  split; [by apply wf_loop|].
  rewrite loop_cur, loop_held, loop_Values by done.
  split; [done|]. unfold stepped in *. split.
  - destruct (saving inp s); [done|].
    apply step_held_pressed; by rewrite <- ?heldFlag_view, <- ?cur_view.
  - apply step_held; by rewrite <- ?heldFlag_view, <- ?value_view.
Qed.

(** C2: a call of [loop()] that leaves channel [i] stably pressed with
    more than 1500 ms since its last raw transition leaves its brightness
    at 0 and its hold flag set; through the following calls that keep the
    channel stably pressed and the call after them, the one that commits
    the release included, the brightness stays 0: no increment fires. *)
Theorem hold_clears_and_suppresses_tap s inp i ins rel :
  wf s → (i < NUM_COLORS)%nat →
  let s1 := (loop inp s).1 in
  curButtonStates s1 !!! i = HIGH →
  HOLD_TIME_CLEAR < elapsed (millis inp) i s1 →
  along (λ _ _ s2, curButtonStates s2 !!! i = HIGH) ins s1 →
  let s2 := (run ins s1).1 in
  (Values s1 !!! i = 0 ∧ buttonsHeld s1 !!! i = 1)
  ∧ Values s2 !!! i = 0
  ∧ Values (loop rel s2).1 !!! i = 0.
Proof.
  intros Hwf Hi s1 Hcur Hel Hal s2.
  assert (H1 : Values s1 !!! i = 0 ∧ buttonsHeld s1 !!! i = 1).
  { subst s1. revert Hcur Hel.
    rewrite loop_cur, loop_elapsed, loop_Values, loop_held by done.
    unfold HOLD_TIME_CLEAR. intros Hcur Hel.
    destruct (step_hold _ _ _ Hcur Hel) as [Hv Hh].
    split; [exact Hv|]. by destruct (saving inp s). }
  split; [exact H1|].
  assert (Hcl : cleared i s2).
  { apply along_run_inv with
      (J := cleared i) (P := λ _ _ s2, curButtonStates s2 !!! i = HIGH);
      [intros; by apply cleared_loop| |done].
    destruct H1 as [Hv Hh]. split; [by apply wf_loop|].
    split; [done|]. split; [|done]. rewrite Hh. done. }
  destruct Hcl as (Hwf2 & _ & Hh2 & Hv2). split; [exact Hv2|].
  rewrite loop_Values by done. unfold stepped.
  apply step_held; by rewrite <- ?heldFlag_view, <- ?value_view.
Qed.

Lemma hold_clears_and_suppresses_tap_witness :
  let inp := Input 1700 (only_pin 10) in
  let ins := [Input 1800 (only_pin 10); Input 1900 (all_pins LOW)] in
  let rel := Input 1940 (all_pins LOW) in
  let s1 := (loop inp first_down).1 in
  let s2 := (run ins s1).1 in
  Values first_down !!! 0%nat = 100
  ∧ curButtonStates (loop rel s2).1 !!! 0%nat = LOW
  ∧ (Values s1 !!! 0%nat = 0 ∧ buttonsHeld s1 !!! 0%nat = 1)
  ∧ Values s2 !!! 0%nat = 0
  ∧ Values (loop rel s2).1 !!! 0%nat = 0.
Proof.
  intros inp ins rel s1 s2.
  split; [by vm_compute|]. split; [by vm_compute|].
  apply (hold_clears_and_suppresses_tap first_down inp 0 ins rel).
  - apply wf_boot.
  - unfold NUM_COLORS; lia.
  - by vm_compute.
  - by vm_compute.
  - by vm_compute.
Defined.

(** ** Taps *)

Lemma tap_call_loop inp i s :
  wf s → (i < NUM_COLORS)%nat →
  curButtonStates s !!! i ≠ HIGH ∨ buttonsHeld s !!! i = 0 →
  tap_call i inp s (loop inp s).1 →
  pressed i (Values s !!! i) (loop inp s).1.
Proof.
  intros Hwf Hi Hpre (Hc & Hel & Hs).
  rewrite loop_save_condition in Hs by done.
  rewrite loop_cur in Hc by done.
  rewrite loop_elapsed in Hel by done.
  split; [by apply wf_loop|].
  rewrite loop_cur, loop_held, loop_Values, Hs by done.
  split; [done|]. unfold stepped in *.
  destruct (step_pressed _ _ _ Hc Hel Hpre) as [Hv Hh].
  by rewrite Hv, Hh.
Qed.

Lemma pressed_run i v ins s :
  (i < NUM_COLORS)%nat →
  pressed i v s → along (tap_call i) ins s → pressed i v (run ins s).1.
Proof.
  intros Hi. apply along_run_inv.
  clear s. intros inp s (Hwf & Hc & Hh & Hv) Ht. rewrite <- Hv.
  apply tap_call_loop; auto.
Qed.

(** The brightness a tap leaves, in the terms of lines 110-115. *)
Lemma tap_value s i press mids rel :
  wf s → (i < NUM_COLORS)%nat →
  curButtonStates s !!! i = LOW →
  along (tap_call i) (press :: mids) s →
  let s2 := (run (press :: mids) s).1 in
  let s3 := (loop rel s2).1 in
  curButtonStates s3 !!! i = LOW →
  Values s3 !!! i = bump (Values s !!! i).
Proof.
  intros Hwf Hi Hlow [Hp Hm] s2 s3 Hrel.
  assert (H1 : pressed i (Values s !!! i) (loop press s).1).
  { apply tap_call_loop; try done. left. by rewrite Hlow. }
  assert (H2 : pressed i (Values s !!! i) s2).
  { subst s2. rewrite run_cons, fst_pair. by apply pressed_run. }
  destruct H2 as (Hwf2 & Hc2 & Hh2 & Hv2).
  subst s3. rewrite loop_cur in Hrel by done.
  rewrite loop_Values, <- Hv2 by done. unfold stepped in *.
  by apply step_release.
Qed.

(** A released channel whose pin keeps reading released. *)
Lemma idle_run j ins s :
  wf s → (j < NUM_COLORS)%nat →
  curButtonStates s !!! j = LOW →
  Forall (λ inp, reading inp j = LOW) ins →
  Values (run ins s).1 !!! j = Values s !!! j.
Proof.
  intros Hwf Hj Hc Hall.
  enough (wf (run ins s).1 ∧ curButtonStates (run ins s).1 !!! j = LOW
          ∧ Values (run ins s).1 !!! j = Values s !!! j) by tauto.
  revert s Hwf Hc. induction Hall as [|inp ins Hr _ IH]; intros s Hwf Hc.
  - by rewrite run_nil, fst_pair.
  - rewrite run_cons, fst_pair.
    assert (Hsame : reading inp j = cur (view s j))
      by (by rewrite <- cur_view, Hc).
    destruct (step_idle (millis inp) (reading inp j) (view s j))
      as [Hv _]; [done|by rewrite <- cur_view, Hc|].
    destruct (IH (loop inp s).1) as (? & ? & E); [by apply wf_loop| |].
    + rewrite loop_cur by done. unfold stepped.
      by rewrite step_cur_same, <- cur_view.
    + rewrite E, loop_Values by done. unfold stepped. by rewrite Hv.
Qed.

(** C1, as amended: a tap on channel [i] (a call that commits the press,
    calls that keep the channel stably pressed with no more than 1500 ms
    since its last raw transition and without the save gesture, then the
    call that commits the release) sets the brightness [v] of the channel
    to 0 if it was 255 and to [v + 16] clamped to 255 otherwise; every
    other channel that is released and keeps reading released keeps its
    brightness. *)
Theorem tap_increments_clamped s i v press mids rel :
  wf s → (i < NUM_COLORS)%nat →
  Values s !!! i = v → 0 ≤ v ≤ 255 →
  curButtonStates s !!! i = LOW →
  along (tap_call i) (press :: mids) s →
  let s3 := (run (press :: mids ++ [rel]) s).1 in
  curButtonStates s3 !!! i = LOW →
  Values s3 !!! i = (if v =? 255 then 0 else Z.min (v + 16) 255)
  ∧ ∀ j, (j < NUM_COLORS)%nat → j ≠ i →
      curButtonStates s !!! j = LOW →
      Forall (λ inp, reading inp j = LOW) (press :: mids ++ [rel]) →
      Values s3 !!! j = Values s !!! j.
Proof.
  intros Hwf Hi Hv Hr Hlow Hal s3 Hrel. split.
  - rewrite <- bump_spec, <- Hv by done. subst s3. revert Hrel.
    rewrite app_comm_cons, run_app, fst_pair, run_cons, run_nil, !fst_pair.
    by apply tap_value.
  - intros j Hj _ Hcj Hall. by apply idle_run.
Qed.

Lemma tap_increments_clamped_witness :
  let s := (boot zero_eeprom [Input 100 (only_pin 10)]).1 in
  let press := Input 140 (only_pin 10) in
  let mids := [Input 150 (only_pin 10); Input 200 (all_pins LOW)] in
  let rel := Input 240 (all_pins LOW) in
  let s3 := (run (press :: mids ++ [rel]) s).1 in
  Values s3 !!! 0%nat = 16
  ∧ Values s3 !!! 1%nat = Values s !!! 1%nat
  ∧ Values s3 !!! 2%nat = Values s !!! 2%nat.
Proof.
  assert (L0 : (0 < NUM_COLORS)%nat) by (unfold NUM_COLORS; lia).
  assert (L1 : (1 < NUM_COLORS)%nat) by (unfold NUM_COLORS; lia).
  assert (L2 : (2 < NUM_COLORS)%nat) by (unfold NUM_COLORS; lia).
  assert (R : 0 ≤ 0 ≤ 255) by lia.
  intros s press mids rel s3.
  destruct (tap_increments_clamped s 0 0 press mids rel) as [H0 Hj].
  - apply wf_boot.
  - exact L0.
  - by vm_compute.
  - exact R.
  - by vm_compute.
  - by vm_compute.
  - by vm_compute.
  - split; [exact H0|].
    split; apply Hj; [exact L1|discriminate|reflexivity|repeat constructor
                     |exact L2|discriminate|reflexivity|repeat constructor].
Defined.

(** C1 as stated fails: the tap of the first button from brightness 240
    leaves 255, which is neither 240 + 16 nor the wrapped 0. *)
Lemma tap_from_240_is_not_plus_16 :
  let s := raw_press_240 in
  let press := Input 140 (only_pin 10) in
  let mids := [Input 200 (all_pins LOW)] in
  let rel := Input 240 (all_pins LOW) in
  let s3 := (run (press :: mids ++ [rel]) s).1 in
  (Values s !!! 0%nat = 240
   ∧ curButtonStates s !!! 0%nat = LOW
   ∧ buttonsHeld s !!! 0%nat = 0
   ∧ along (tap_call 0) (press :: mids) s
   ∧ curButtonStates s3 !!! 0%nat = LOW)
  ∧ Values s3 !!! 0%nat = 255
  ∧ ¬ (Values s3 !!! 0%nat = 240 + 16 ∨ Values s3 !!! 0%nat = 0).
Proof.
  vm_compute. repeat split; try discriminate.
  intros [?|?]; discriminate.
Qed.

(** C7, as amended: a tap on channel 0 at brightness 240 leaves
    brightness 255; the sum 256 is clamped, not wrapped. *)
Theorem tap_from_240_gives_255 s press mids rel :
  wf s →
  Values s !!! 0%nat = 240 →
  curButtonStates s !!! 0%nat = LOW →
  along (tap_call 0) (press :: mids) s →
  let s3 := (run (press :: mids ++ [rel]) s).1 in
  curButtonStates s3 !!! 0%nat = LOW →
  Values s3 !!! 0%nat = 255.
Proof.
  intros Hwf Hv Hlow Hal s3. subst s3.
  rewrite app_comm_cons, run_app, fst_pair, run_cons, run_nil, !fst_pair.
  intros Hrel. rewrite (tap_value s 0 press mids rel); try done.
  - by rewrite Hv.
  - unfold NUM_COLORS; lia.
Qed.

Lemma tap_from_240_gives_255_witness :
  let press := Input 140 (only_pin 10) in
  let mids := [Input 200 (all_pins LOW)] in
  let rel := Input 240 (all_pins LOW) in
  Values (run (press :: mids ++ [rel]) raw_press_240).1 !!! 0%nat = 255.
Proof.
  intros press mids rel.
  apply (tap_from_240_gives_255 raw_press_240 press mids rel).
  - apply wf_boot.
  - by vm_compute.
  - by vm_compute.
  - by vm_compute.
  - by vm_compute.
Defined.

(** C7 as stated fails: the tap on channel 0 at brightness 240 does not
    leave 0. *)
Lemma tap_from_240_does_not_wrap :
  let press := Input 140 (only_pin 10) in
  let mids := [Input 200 (all_pins LOW)] in
  let rel := Input 240 (all_pins LOW) in
  let s3 := (run (press :: mids ++ [rel]) raw_press_240).1 in
  Values raw_press_240 !!! 0%nat = 240
  ∧ curButtonStates raw_press_240 !!! 0%nat = LOW
  ∧ curButtonStates (loop press raw_press_240).1 !!! 0%nat = HIGH
  ∧ curButtonStates s3 !!! 0%nat = LOW
  ∧ Values s3 !!! 0%nat ≠ 0.
Proof. vm_compute. repeat split; discriminate. Qed.

(** ** Brightness values *)

(** C4, as amended: in every state of every run each brightness is in
    [0,255], and one call of [loop()] either keeps it, or resets it to 0
    (hold-clear, or the tap at 255), or makes the tap change to
    [v + 16] clamped to 255. *)
Theorem brightness_steps e ins inp i :
  (i < NUM_COLORS)%nat →
  let s := (boot e ins).1 in
  let v := Values s !!! i in
  let v' := Values (loop inp s).1 !!! i in
  0 ≤ v ≤ 255
  ∧ (v' = v ∨ v' = 0 ∨ (v ≠ 255 ∧ v' = Z.min (v + 16) 255)).
Proof.
  intros Hi s v v'. destruct (inv_boot e ins) as [Hwf Hinv]. fold s in Hwf.
  destruct (Hinv i Hi) as (Hv & _). fold s v in Hv.
  split; [exact Hv|]. subst v'. rewrite loop_Values by done. unfold stepped.
  destruct (step_value (millis inp) (reading inp i) (view s i))
    as [E|[E|E]]; rewrite E, <- ?value_view; fold v; auto.
  rewrite bump_spec by done. destruct (Z.eqb_spec v 255); auto.
Qed.

Lemma brightness_steps_witness :
  let s := (boot zero_eeprom []).1 in
  let v := Values s !!! 0%nat in
  let v' := Values (loop (Input 100 (only_pin 10)) s).1 !!! 0%nat in
  0 ≤ v ≤ 255
  ∧ (v' = v ∨ v' = 0 ∨ (v ≠ 255 ∧ v' = Z.min (v + 16) 255)).
Proof.
  apply (brightness_steps zero_eeprom [] (Input 100 (only_pin 10)) 0).
  unfold NUM_COLORS; lia.
Defined.

(** C4 as stated fails: in the run that taps the first button over an
    EEPROM of 240s, the call that commits the release takes the
    brightness from 240 to 255, which is not the same value, not
    240 + 16, not the wrap from 255 to 0 and not a reset to 0. *)
Lemma brightness_step_240_to_255 :
  let s := tapping (λ _, 240) in
  let v := Values s !!! 0%nat in
  let v' := Values (loop (Input 240 (all_pins LOW)) s).1 !!! 0%nat in
  v = 240 ∧ v' = 255
  ∧ ¬ (v' = v ∨ v' = v + 16 ∨ (v = 255 ∧ v' = 0) ∨ v' = 0).
Proof.
  vm_compute. repeat split.
  intros [?|[?|[[? ?]|?]]]; discriminate.
Qed.

(** ** Debounce *)

Lemma along_app P ins ins' s :
  along P (ins ++ ins') s ↔ along P ins s ∧ along P ins' (run ins s).1.
Proof.
  revert s. induction ins as [|inp ins IH]; intros s.
  - rewrite app_nil_l, run_nil, fst_pair. cbn [along]. tauto.
  - rewrite <- app_comm_cons, run_cons, fst_pair. cbn [along].
    rewrite IH. tauto.
Qed.

Lemma run_inv (I : state → Prop) (G : input → Prop) ins s :
  (∀ inp s, I s → G inp → I (loop inp s).1) →
  I s → Forall G ins → I (run ins s).1.
Proof.
  intros Hstep. revert s.
  induction ins as [|inp ins IH]; intros s Hs Hall.
  - by rewrite run_nil, fst_pair.
  - inversion Hall; subst. rewrite run_cons, fst_pair.
    apply IH; [|done]. by apply Hstep.
Qed.

Lemma flickering_loop i L r t0 inp s :
  (i < NUM_COLORS)%nat →
  flickering i L r t0 s →
  reading inp i = r ∧ ulong_of (millis inp - t0) < 30 →
  flickering i L r t0 (loop inp s).1.
Proof.
  intros Hi (Hwf & Hc & Hl & Ht) [Hr Hel].
  split; [by apply wf_loop|].
  rewrite loop_cur, loop_last, loop_debounceTime by done. unfold stepped.
  assert (Hd : debounceTime (channel_step (millis inp) (reading inp i)
                               (view s i)) = long_of t0).
  { rewrite step_debounceTime, <- last_view, Hl, Hr, Z.eqb_refl.
    by rewrite <- debounceTime_view. }
  split; [|done].
  rewrite step_cur_early, <- ?cur_view; [done|].
  rewrite Hd, ulong_sub_long. lia.
Qed.

Lemma flicker_start i L r inp s :
  wf s → (i < NUM_COLORS)%nat →
  curButtonStates s !!! i = L → lastButtonStates s !!! i ≠ r →
  reading inp i = r →
  flickering i L r (millis inp) (loop inp s).1.
Proof.
  intros Hwf Hi Hc Hl Hr.
  split; [by apply wf_loop|].
  rewrite loop_cur, loop_last, loop_debounceTime by done. unfold stepped.
  assert (Hd : debounceTime (channel_step (millis inp) (reading inp i)
                               (view s i)) = long_of (millis inp)).
  { rewrite step_debounceTime, <- last_view, Hr.
    destruct (Z.eqb_spec r (lastButtonStates s !!! i)); congruence. }
  split; [|done].
  rewrite step_cur_early, <- ?cur_view; [done|].
  rewrite Hd, ulong_sub_self. lia.
Qed.

Lemma settled_loop i L inp s :
  (i < NUM_COLORS)%nat →
  wf s ∧ curButtonStates s !!! i = L → reading inp i = L →
  wf (loop inp s).1 ∧ curButtonStates (loop inp s).1 !!! i = L.
Proof.
  intros Hi [Hwf Hc] Hr. split; [by apply wf_loop|].
  rewrite loop_cur by done. unfold stepped.
  rewrite step_cur_same; rewrite <- cur_view; congruence.
Qed.

(** C5: when the raw level of a channel leaves the level [L] at which it
    and the stable state rest, and every call of [loop()] that sees the
    deviating level comes less than 30 ms after the first of them, then
    the stable state is [L] after each of these calls and after each of
    the calls that follow with the raw level back at [L]. *)
Theorem flicker_is_filtered s i L r f0 fs rest :
  wf s → (i < NUM_COLORS)%nat →
  curButtonStates s !!! i = L → lastButtonStates s !!! i = L →
  r ≠ L →
  Forall (λ inp, reading inp i = r ∧ ulong_of (millis inp - millis f0) < 30)
         (f0 :: fs) →
  Forall (λ inp, reading inp i = L) rest →
  along (λ _ _ s', curButtonStates s' !!! i = L) ((f0 :: fs) ++ rest) s.
Proof.
  intros Hwf Hi Hc Hl Hne Hfl Hrest.
  apply Forall_cons in Hfl as [[Hr0 _] Hfs].
  assert (H1 : flickering i L r (millis f0) (loop f0 s).1).
  { apply flicker_start; try done. by rewrite Hl. }
  apply along_app. split.
  - split; [apply H1|].
    eapply along_inv with (I := flickering i L r (millis f0));
      [|exact H1|exact Hfs].
    intros inp s1 Hs1 Hin.
    pose proof (flickering_loop _ _ _ _ _ _ Hi Hs1 Hin) as Hs2.
    split; [apply Hs2|exact Hs2].
  - assert (H2 : flickering i L r (millis f0) (run (f0 :: fs) s).1).
    { rewrite run_cons, fst_pair.
      eapply run_inv; [|exact H1|exact Hfs].
      intros inp s1. by apply flickering_loop. }
    destruct H2 as (Hwf2 & Hc2 & _).
    eapply along_inv with
      (I := λ s1, wf s1 ∧ curButtonStates s1 !!! i = L);
      [|by split|exact Hrest].
    intros inp s1 Hs1 Hin.
    pose proof (settled_loop _ _ _ _ Hi Hs1 Hin) as Hs2.
    split; [apply Hs2|exact Hs2].
Qed.

Lemma flicker_is_filtered_witness :
  let s := (boot zero_eeprom []).1 in
  let f0 := Input 100 (only_pin 10) in
  let fs := [Input 110 (only_pin 10); Input 129 (only_pin 10)] in
  let rest := [Input 130 (all_pins LOW); Input 500 (all_pins LOW)] in
  along (λ _ _ s', curButtonStates s' !!! 0%nat = LOW) ((f0 :: fs) ++ rest) s.
Proof.
  assert (L0 : (0 < NUM_COLORS)%nat) by (unfold NUM_COLORS; lia).
  assert (N : HIGH ≠ LOW) by discriminate.
  intros s f0 fs rest.
  apply (flicker_is_filtered s 0 LOW HIGH f0 fs rest).
  - apply wf_boot.
  - exact L0.
  - reflexivity.
  - reflexivity.
  - exact N.
  - repeat constructor.
  - repeat constructor.
Defined.

(** ** Output writes *)

Lemma last_write_app pin tr tr' :
  last_write pin (tr ++ tr')
  = match last_write pin tr' with
    | Some v => Some v
    | None => last_write pin tr
    end.
Proof.
  induction tr as [|ev tr IH]; cbn [app last_write].
  - by destruct (last_write pin tr').
  - rewrite IH. by destruct (last_write pin tr').
Qed.

Lemma OUTPUTS_inj i j :
  (i < NUM_COLORS)%nat → (j < NUM_COLORS)%nat →
  OUTPUTS !!! i = OUTPUTS !!! j → i = j.
Proof. intros Hi Hj. channels i Hi; channels j Hj; done. Qed.

(** The writes of the write-on-change step. *)
Lemma apply_changes_write s i v :
  (i < NUM_COLORS)%nat →
  AnalogWrite (OUTPUTS !!! i) v ∈ (apply_changes s).2 →
  v = Values s !!! i ∧ Values s !!! i ≠ lastValues s !!! i.
Proof.
  intros Hi. rewrite trace_apply_changes, !elem_of_app.
  assert (E : ∀ j, (j < NUM_COLORS)%nat →
            AnalogWrite (OUTPUTS !!! i) v ∈ apply_event s j →
            v = Values s !!! i ∧ Values s !!! i ≠ lastValues s !!! i).
  { intros j Hj. unfold apply_event.
    destruct (Z.eqb_spec (Values s !!! j) (lastValues s !!! j)) as [|Hne];
      cbn [negb]; [by intros ?%elem_of_nil|].
    intros Hin%list_elem_of_singleton. injection Hin as Hp Hv.
    apply OUTPUTS_inj in Hp; [|done..]. by subst. }
  intros [H|[H|H]]; revert H; apply E; unfold NUM_COLORS; lia.
Qed.

Lemma last_write_apply s i :
  (i < NUM_COLORS)%nat →
  last_write (OUTPUTS !!! i)
    (apply_event s 0 ++ apply_event s 1 ++ apply_event s 2)
  = if negb (Values s !!! i =? lastValues s !!! i)
    then Some (Values s !!! i) else None.
Proof.
  intros Hi. unfold apply_event.
  channels i Hi; repeat (destruct (negb _)); reflexivity.
Qed.

Lemma last_write_blink s i :
  (i < NUM_COLORS)%nat →
  last_write (OUTPUTS !!! i) (blink s ++ save_events s)
  = Some (Values s !!! i).
Proof. intros Hi. channels i Hi; reflexivity. Qed.

Lemma setup_trace e :
  (setup (power_on e)).2
  = [PinMode 10 INPUT; PinMode 3 OUTPUT; PinMode 11 INPUT; PinMode 5 OUTPUT;
     PinMode 12 INPUT; PinMode 6 OUTPUT;
     AnalogWrite 3 0; AnalogWrite 5 0; AnalogWrite 6 0;
     AnalogWrite 3 (EEPROM_read e 0); AnalogWrite 5 (EEPROM_read e 1);
     AnalogWrite 6 (EEPROM_read e 2)].
Proof. reflexivity. Qed.

Lemma tracked_setup e : tracked (setup (power_on e)).1 (setup (power_on e)).2.
Proof.
  intros i Hi. rewrite setup_trace, setup_state, LoadState_power_on.
  channels i Hi; reflexivity.
Qed.

Lemma tracked_loop inp s tr :
  wf s → tracked s tr → tracked (loop inp s).1 (tr ++ (loop inp s).2).
Proof.
  intros Hwf Htr i Hi. rewrite last_write_app, loop_lastValues by done.
  rewrite loop_eq, snd_pair, last_write_app by done.
  pose proof (view_check_channels inp i s Hwf Hi) as Hv.
  rewrite stepped_eq in Hv.
  destruct (saving inp s).
  - rewrite last_write_blink, value_view, view_checked by done. reflexivity.
  - cbn [last_write]. rewrite last_write_apply by done.
    rewrite value_view, lastValue_view, Hv.
    unfold stepped at 2. rewrite step_lastValue, <- lastValue_view.
    destruct (Z.eqb_spec (value (stepped inp s i)) (lastValues s !!! i))
      as [->|]; cbn [negb]; [by apply Htr|reflexivity].
Qed.

Lemma tracked_run ins s tr :
  wf s → tracked s tr → tracked (run ins s).1 (tr ++ (run ins s).2).
Proof.
  revert s tr. induction ins as [|inp ins IH]; intros s tr Hwf Htr.
  - by rewrite run_nil, fst_pair, snd_pair, app_nil_r.
  - rewrite run_cons, fst_pair, snd_pair, app_assoc.
    apply IH; [by apply wf_loop|by apply tracked_loop].
Qed.

Lemma tracked_boot e ins : tracked (boot e ins).1 (boot e ins).2.
Proof.
  rewrite boot_eq, fst_pair, snd_pair.
  apply tracked_run; [apply wf_setup, wf_power_on|apply tracked_setup].
Qed.

Lemma blink_write s i v :
  (i < NUM_COLORS)%nat →
  AnalogWrite (OUTPUTS !!! i) v ∈ blink s ++ save_events s →
  v = 0 ∨ v = Values s !!! i.
Proof.
  intros Hi. rewrite blink_eq. unfold save_events. cbn [app]. intros H.
  channels i Hi;
    [change (OUTPUTS !!! 0%nat) with 3 in H
    |change (OUTPUTS !!! 1%nat) with 5 in H
    |change (OUTPUTS !!! 2%nat) with 6 in H].
  all: repeat (apply elem_of_cons in H as [H|H];
               [try discriminate H; injection H as ->; auto|]).
  all: by apply elem_of_nil in H.
Qed.

(** C8, as amended: in every run, an output write for channel [i] occurs
    only on a call of [loop()] that leaves a brightness different from
    the previously applied value, and then writes that brightness, or on
    a call on which the save gesture fires, whose blink writes 0 and the
    brightness to every output; the previously applied value is the
    value of the last write to that output so far. *)
Theorem write_only_on_change_or_blink e ins inp i v :
  (i < NUM_COLORS)%nat →
  let s := (boot e ins).1 in
  let s' := (loop inp s).1 in
  AnalogWrite (OUTPUTS !!! i) v ∈ (loop inp s).2 →
  last_write (OUTPUTS !!! i) (boot e ins).2 = Some (lastValues s !!! i)
  ∧ ((v = Values s' !!! i ∧ Values s' !!! i ≠ lastValues s !!! i)
     ∨ (save_condition (millis inp) s' = true
        ∧ (v = 0 ∨ v = Values s' !!! i))).
Proof.
  intros Hi s s' Hin.
  pose proof (wf_boot e ins) as Hwf. fold s in Hwf.
  split; [by apply tracked_boot|].
  subst s'. rewrite loop_save_condition by done.
  rewrite loop_eq, snd_pair, <- trace_apply_changes in Hin by done.
  apply elem_of_app in Hin as [Hin|Hin].
  - left. apply apply_changes_write in Hin; [|done].
    revert Hin. rewrite loop_Values, value_view, lastValue_view by done.
    rewrite view_check_channels, stepped_eq by done.
    unfold stepped at 3. by rewrite step_lastValue.
  - right. destruct (saving inp s); [|by apply elem_of_nil in Hin].
    split; [done|]. rewrite Values_loop_checked by done.
    by apply blink_write.
Qed.

Lemma write_only_on_change_or_blink_witness :
  let ins := [Input 100 (only_pin 10); Input 140 (only_pin 10);
              Input 200 (all_pins LOW)] in
  let s := (boot zero_eeprom ins).1 in
  let inp := Input 240 (all_pins LOW) in
  let s' := (loop inp s).1 in
  AnalogWrite 3 16 ∈ (loop inp s).2
  ∧ last_write (OUTPUTS !!! 0%nat) (boot zero_eeprom ins).2
    = Some (lastValues s !!! 0%nat)
  ∧ ((16 = Values s' !!! 0%nat ∧ Values s' !!! 0%nat ≠ lastValues s !!! 0%nat)
     ∨ (save_condition (millis inp) s' = true
        ∧ (16 = 0 ∨ 16 = Values s' !!! 0%nat))).
Proof.
  assert (L0 : (0 < NUM_COLORS)%nat) by (unfold NUM_COLORS; lia).
  intros ins s inp s'.
  assert (Hin : AnalogWrite (OUTPUTS !!! 0%nat) 16 ∈ (loop inp s).2)
    by (vm_compute; constructor).
  split; [exact Hin|].
  exact (write_only_on_change_or_blink zero_eeprom ins inp 0 16 L0 Hin).
Defined.

(** C8 as stated fails: with all three buttons held over an EEPROM of
    100s, the call at 1200 ms fires the save gesture and writes the
    first output, though its brightness, 100, is the value last applied
    and last written. *)
Lemma blink_writes_without_change :
  let s := (boot (λ _, 100) all_down).1 in
  let inp := Input 1200 (all_pins HIGH) in
  (AnalogWrite (OUTPUTS !!! 0%nat) 0 ∈ (loop inp s).2
   ∧ AnalogWrite (OUTPUTS !!! 0%nat) 100 ∈ (loop inp s).2)
  ∧ Values (loop inp s).1 !!! 0%nat = 100
  ∧ lastValues s !!! 0%nat = 100
  ∧ last_write (OUTPUTS !!! 0%nat) (boot (λ _, 100) all_down).2 = Some 100.
Proof.
  vm_compute. repeat split; repeat constructor.
Qed.

Lemma along_inv2 (I : state → Prop) (P Q : input → state → state → Prop)
    ins s :
  (∀ inp s, I s → P inp s (loop inp s).1 →
     Q inp s (loop inp s).1 ∧ I (loop inp s).1) →
  I s → along P ins s → along Q ins s.
Proof.
  intros Hstep. revert s.
  induction ins as [|inp ins IH]; intros s Hs Hal; [exact Logic.I|].
  destruct Hal as [HP Hal]. destruct (Hstep inp s Hs HP) as [HQ HI].
  split; [exact HQ|]. by apply IH.
Qed.

(** C10: [LoadState()] gives each channel the byte of its EEPROM cell as
    brightness and as last applied brightness, so that from [setup()] on,
    through the calls of [loop()] that leave the brightness of channel
    [i] at the loaded value, the write-on-change step makes no write to
    the output of channel [i]. *)
Theorem no_write_until_first_change e ins i :
  (i < NUM_COLORS)%nat →
  let s0 := (setup (power_on e)).1 in
  along (λ _ _ s', Values s' !!! i = Values s0 !!! i) ins s0 →
  s0 = LoadState (power_on e)
  ∧ lastValues s0 !!! i = Values s0 !!! i
  ∧ Values s0 !!! i = EEPROM_read e (Z.of_nat i + EEPROM_DATA_OFFSET)
  ∧ along (λ inp s _,
        ∀ v, AnalogWrite (OUTPUTS !!! i) v
             ∉ (apply_changes (check_channels inp s)).2) ins s0.
Proof.
  intros Hi s0 Hal. split; [reflexivity|].
  assert (H0 : lastValues s0 !!! i = Values s0 !!! i
               ∧ Values s0 !!! i
                 = EEPROM_read e (Z.of_nat i + EEPROM_DATA_OFFSET)).
  { subst s0. rewrite setup_state, LoadState_power_on.
    by channels i Hi. }
  destruct H0 as [Hl Hv]. split; [exact Hl|]. split; [exact Hv|].
  revert Hal. apply along_inv2 with
    (I := λ s, wf s ∧ lastValues s !!! i = Values s0 !!! i
               ∧ Values s !!! i = Values s0 !!! i);
    [|split; [apply wf_setup, wf_power_on|by split]].
  intros inp s (Hwf & Hls & Hvs) Hkeep. split.
  - intros v Hin%apply_changes_write; [|done]. destruct Hin as [_ Hne].
    apply Hne. rewrite value_view, lastValue_view.
    rewrite view_check_channels, stepped_eq by done.
    unfold stepped at 2. rewrite step_lastValue, <- lastValue_view, Hls.
    by rewrite <- Hkeep, loop_Values.
  - split; [by apply wf_loop|]. split; [|done].
    by rewrite loop_lastValues, <- loop_Values.
Qed.

Lemma no_write_until_first_change_witness :
  let s0 := (setup (power_on (λ _, 100))).1 in
  let ins := [Input 100 (only_pin 11); Input 140 (only_pin 11);
              Input 200 (all_pins LOW); Input 240 (all_pins LOW)] in
  Values (run ins s0).1 = [100; 116; 100]
  ∧ lastValues s0 !!! 0%nat = Values s0 !!! 0%nat
  ∧ Values s0 !!! 0%nat = EEPROM_read (λ _, 100) 0
  ∧ along (λ inp s _,
        ∀ v, AnalogWrite (OUTPUTS !!! 0%nat) v
             ∉ (apply_changes (check_channels inp s)).2) ins s0.
Proof.
  assert (L0 : (0 < NUM_COLORS)%nat) by (unfold NUM_COLORS; lia).
  intros s0 ins. split; [by vm_compute|].
  apply (no_write_until_first_change (λ _, 100) ins 0 L0).
  by vm_compute.
Defined.


(** * Further properties of the sketch *)

(** ** What the outputs show *)

(** X1: in every run, after [setup()] and after each call of [loop()],
    the last value written to the output of each channel is the
    brightness of the channel, which the sketch also holds as last
    applied, and it is a byte. *)
Theorem outputs_in_sync e ins i :
  (i < NUM_COLORS)%nat →
  let st := boot e ins in
  last_write (OUTPUTS !!! i) st.2 = Some (Values st.1 !!! i)
  ∧ lastValues st.1 !!! i = Values st.1 !!! i
  ∧ 0 ≤ Values st.1 !!! i ≤ 255.
Proof.
  intros Hi st. subst st.
  destruct (inv_boot e ins) as [_ Hinv].
  destruct (Hinv i Hi) as (Hr & Hl & _).
  rewrite <- Hl at 1. split; [by apply tracked_boot|done].
Qed.

Lemma outputs_in_sync_witness :
  let st := boot (λ _, 100) all_down in
  last_write (OUTPUTS !!! 1%nat) st.2 = Some (Values st.1 !!! 1%nat)
  ∧ lastValues st.1 !!! 1%nat = Values st.1 !!! 1%nat
  ∧ 0 ≤ Values st.1 !!! 1%nat ≤ 255.
Proof.
  apply (outputs_in_sync (λ _, 100) all_down 1).
  unfold NUM_COLORS; lia.
Defined.

(** ** The hold flags *)

Lemma step_held_bit ts r c :
  heldFlag c = 0 ∨ heldFlag c = 1 →
  heldFlag (channel_step ts r c) = 0 ∨ heldFlag (channel_step ts r c) = 1.
Proof. step_cases c; intros; auto. Qed.

Lemma held_bit_loop inp s :
  wf s →
  (∀ i, (i < NUM_COLORS)%nat →
     buttonsHeld s !!! i = 0 ∨ buttonsHeld s !!! i = 1) →
  ∀ i, (i < NUM_COLORS)%nat →
    buttonsHeld (loop inp s).1 !!! i = 0
    ∨ buttonsHeld (loop inp s).1 !!! i = 1.
Proof.
  intros Hwf H i Hi. rewrite loop_held by done.
  destruct (saving inp s); [by right|].
  unfold stepped. apply step_held_bit. rewrite <- heldFlag_view. by apply H.
Qed.

Lemma held_bit_run ins s :
  wf s →
  (∀ i, (i < NUM_COLORS)%nat →
     buttonsHeld s !!! i = 0 ∨ buttonsHeld s !!! i = 1) →
  ∀ i, (i < NUM_COLORS)%nat →
    buttonsHeld (run ins s).1 !!! i = 0 ∨ buttonsHeld (run ins s).1 !!! i = 1.
Proof.
  revert s. induction ins as [|inp ins IH]; intros s Hwf H.
  - by rewrite run_nil, fst_pair.
  - rewrite run_cons, fst_pair.
    apply IH; [by apply wf_loop|by apply held_bit_loop].
Qed.

(** X2: in every state of every run the hold flag of a channel is 0 or
    1, and it is 1 only while the stable state of the channel is
    pressed: a released channel is never marked held. *)
Theorem held_only_while_pressed e ins i :
  (i < NUM_COLORS)%nat →
  let s := (boot e ins).1 in
  buttonsHeld s !!! i = 0
  ∨ (buttonsHeld s !!! i = 1 ∧ curButtonStates s !!! i = HIGH).
Proof.
  intros Hi s.
  destruct (inv_boot e ins) as [_ Hinv].
  destruct (Hinv i Hi) as (_ & _ & Hh). fold s in Hh.
  assert (Hb : buttonsHeld s !!! i = 0 ∨ buttonsHeld s !!! i = 1).
  { subst s. rewrite boot_eq, fst_pair.
    apply held_bit_run; [apply wf_setup, wf_power_on| |done].
    intros k Hk. rewrite setup_state, LoadState_power_on.
    left. by channels k Hk. }
  destruct Hb as [Hb|Hb]; [by left|right].
  split; [done|]. apply Hh. by rewrite Hb.
Qed.

Lemma held_only_while_pressed_witness :
  let s := (boot (λ _, 100) (all_down ++ [Input 1200 (all_pins HIGH)])).1 in
  buttonsHeld s !!! 2%nat = 0
  ∨ (buttonsHeld s !!! 2%nat = 1 ∧ curButtonStates s !!! 2%nat = HIGH).
Proof.
  apply (held_only_while_pressed (λ _, 100)
           (all_down ++ [Input 1200 (all_pins HIGH)]) 2).
  unfold NUM_COLORS; lia.
Defined.

(** ** The hardware effects of a call *)

Lemma OUTPUTS_elem i : (i < NUM_COLORS)%nat → OUTPUTS !!! i ∈ OUTPUTS.
Proof. intros Hi. channels i Hi; repeat constructor. Qed.

Lemma loop_event_apply s i :
  (i < NUM_COLORS)%nat → 0 ≤ Values s !!! i ≤ 255 →
  Forall loop_event (apply_event s i).
Proof.
  intros Hi Hv. unfold apply_event. destruct (negb _); [|apply Forall_nil_2].
  apply Forall_cons_2; [|apply Forall_nil_2].
  split; [by apply OUTPUTS_elem|done].
Qed.

(** X3: in every run, the hardware effects of a call of [loop()] are
    writes of bytes to the three outputs, waits of the blink delay and
    writes of bytes to the EEPROM cells 0, 1, 2; no pin mode is changed,
    no other pin or cell written, no value outside [0,255] sent. *)
Theorem loop_effects_bounded e ins inp :
  Forall loop_event (loop inp (boot e ins).1).2.
Proof.
  pose proof (inv_boot e ins) as Hinv.
  pose proof (inv_loop inp _ Hinv) as [_ Hinv'].
  destruct Hinv as [Hwf Hinv].
  assert (L0 : (0 < NUM_COLORS)%nat) by (unfold NUM_COLORS; lia).
  assert (L1 : (1 < NUM_COLORS)%nat) by (unfold NUM_COLORS; lia).
  assert (L2 : (2 < NUM_COLORS)%nat) by (unfold NUM_COLORS; lia).
  assert (Hv : ∀ k, (k < NUM_COLORS)%nat →
            0 ≤ Values (checked inp (boot e ins).1) !!! k ≤ 255).
  { intros k Hk. rewrite <- Values_loop_checked by done. by apply Hinv'. }
  assert (Hc : ∀ k, (k < NUM_COLORS)%nat →
            0 ≤ Values (check_channels inp (boot e ins).1) !!! k ≤ 255).
  { intros k Hk. rewrite value_view, view_check_channels by done.
    apply step_range. rewrite <- value_view. by apply Hinv. }
  rewrite loop_eq, snd_pair by done.
  repeat (apply Forall_app; split); try (apply loop_event_apply; by auto).
  destruct (saving inp (boot e ins).1); [|apply Forall_nil_2].
  apply Forall_app; split.
  - rewrite blink_eq.
    repeat (apply Forall_cons_2); try apply Forall_nil_2;
      try reflexivity; (split; [repeat constructor|auto; lia]).
  - unfold save_events, NUM_COLORS.
    repeat (apply Forall_cons_2); try apply Forall_nil_2;
      (split; [lia|apply uint8_range]).
Qed.

(** X4: a call of [loop()] on which the save gesture does not fire
    leaves the EEPROM as it was; it does not wait, and its only effects
    are at most three output writes. *)
Theorem no_gesture_no_eeprom_write s inp :
  wf s →
  save_condition (millis inp) (loop inp s).1 = false →
  EEPROM (loop inp s).1 = EEPROM s
  ∧ Forall (λ ev, ∃ p v, ev = AnalogWrite p v) (loop inp s).2
  ∧ (length (loop inp s).2 ≤ 3)%nat.
Proof.
  intros Hwf Hs. rewrite loop_save_condition in Hs by done.
  rewrite EEPROM_loop, loop_eq, snd_pair, Hs, app_nil_r by done.
  split; [done|]. unfold apply_event.
  repeat (destruct (negb _)); cbn [app length];
    (split; [repeat (apply Forall_cons_2; [by eexists _, _|]);
             apply Forall_nil_2|lia]).
Qed.

Lemma no_gesture_no_eeprom_write_witness :
  let s := tapping zero_eeprom in
  let inp := Input 240 (all_pins LOW) in
  EEPROM (loop inp s).1 = EEPROM s
  ∧ Forall (λ ev, ∃ p v, ev = AnalogWrite p v) (loop inp s).2
  ∧ (length (loop inp s).2 ≤ 3)%nat.
Proof.
  intros s inp.
  apply (no_gesture_no_eeprom_write s inp); [apply wf_boot|by vm_compute].
Defined.

(** ** [SaveState()] and [LoadState()] *)

(** X5: [SaveState()] changes no global array and no EEPROM cell other
    than 0, 1, 2; each of these three cells then reads as the brightness
    of its channel reduced modulo 256, and the three writes are made in
    the order of the cells. *)
Theorem SaveState_touches_three_cells s :
  let s' := (SaveState s).1 in
  (Values s' = Values s ∧ lastValues s' = lastValues s
   ∧ curButtonStates s' = curButtonStates s
   ∧ lastButtonStates s' = lastButtonStates s
   ∧ buttonsHeld s' = buttonsHeld s
   ∧ lastDebounceTimes s' = lastDebounceTimes s)
  ∧ (∀ a, a ≠ 0 → a ≠ 1 → a ≠ 2 → EEPROM s' a = EEPROM s a)
  ∧ EEPROM_read (EEPROM s') 0 = Values s !!! 0%nat mod 256
  ∧ EEPROM_read (EEPROM s') 1 = Values s !!! 1%nat mod 256
  ∧ EEPROM_read (EEPROM s') 2 = Values s !!! 2%nat mod 256
  ∧ (SaveState s).2
    = [EepromWrite 0 (Values s !!! 0%nat mod 256);
       EepromWrite 1 (Values s !!! 1%nat mod 256);
       EepromWrite 2 (Values s !!! 2%nat mod 256)].
Proof.
  intros s'. subst s'. rewrite SaveState_eq, fst_pair, snd_pair.
  split; [by repeat split|]. split.
  - intros a H0 H1 H2. unfold set_EEPROM, saved_eeprom, EEPROM_write; proj.
    destruct (Z.eqb_spec a 2); [done|].
    destruct (Z.eqb_spec a 1); [done|].
    by destruct (Z.eqb_spec a 0).
  - change (EEPROM (set_EEPROM ?e s)) with e.
    destruct (read_saved_eeprom s) as (-> & -> & ->). by repeat split.
Qed.

Section LoadStateBody.
Variables (i : nat) (s : state).
Hypothesis Hwf : wf s.
Hypothesis Hi : (i < NUM_COLORS)%nat.

Lemma view_LoadState_body :
  view (LoadState_body i s) i
  = Channel (EEPROM_read (EEPROM s) (Z.of_nat i + EEPROM_DATA_OFFSET))
            (EEPROM_read (EEPROM s) (Z.of_nat i + EEPROM_DATA_OFFSET))
            (cur (view s i)) (last (view s i)) (heldFlag (view s i))
            (debounceTime (view s i)).
Proof. unfold LoadState_body. cbv zeta. to_view i. by stores. Qed.
End LoadStateBody.

Lemma view_LoadState_body_ne i j s :
  i ≠ j → view (LoadState_body i s) j = view s j.
Proof.
  intros Hne. unfold LoadState_body. cbv zeta.
  by rewrite view_set_Values_ne, view_set_lastValues_ne.
Qed.

Lemma EEPROM_LoadState_body i s : EEPROM (LoadState_body i s) = EEPROM s.
Proof. reflexivity. Qed.

Lemma wf_LoadState_body i s : wf s → wf (LoadState_body i s).
Proof. intros. unfold LoadState_body. auto with wfdb. Qed.

Lemma EEPROM_LoadState s : EEPROM (LoadState s) = EEPROM s.
Proof. reflexivity. Qed.

Lemma view_LoadState i s :
  wf s → (i < NUM_COLORS)%nat →
  view (LoadState s) i
  = Channel (EEPROM_read (EEPROM s) (Z.of_nat i + EEPROM_DATA_OFFSET))
            (EEPROM_read (EEPROM s) (Z.of_nat i + EEPROM_DATA_OFFSET))
            (cur (view s i)) (last (view s i)) (heldFlag (view s i))
            (debounceTime (view s i)).
Proof.
  intros Hwf Hi. unfold LoadState, for_colors. cbn [NUM_COLORS seq foldl].
  pose proof (wf_LoadState_body 0 s Hwf) as Hwf0.
  pose proof (wf_LoadState_body 1 _ Hwf0) as Hwf1.
  channels i Hi.
  - rewrite !view_LoadState_body_ne by lia. by apply view_LoadState_body.
  - rewrite view_LoadState_body_ne by lia.
    rewrite view_LoadState_body by done.
    by rewrite EEPROM_LoadState_body, view_LoadState_body_ne by lia.
  - rewrite view_LoadState_body by done.
    by rewrite !EEPROM_LoadState_body, !view_LoadState_body_ne by lia.
Qed.

(** X6: whatever the globals hold, [LoadState()] sets the brightness and
    the last applied brightness of each channel to the byte read from
    the EEPROM cell of the channel, and touches neither the button
    state, the hold flag, the timestamp nor the EEPROM. *)
Theorem LoadState_overwrites_brightness s i :
  wf s → (i < NUM_COLORS)%nat →
  let s' := LoadState s in
  let b := EEPROM_read (EEPROM s) (Z.of_nat i + EEPROM_DATA_OFFSET) in
  (Values s' !!! i = b ∧ lastValues s' !!! i = b ∧ 0 ≤ b ≤ 255)
  ∧ curButtonStates s' !!! i = curButtonStates s !!! i
  ∧ lastButtonStates s' !!! i = lastButtonStates s !!! i
  ∧ buttonsHeld s' !!! i = buttonsHeld s !!! i
  ∧ lastDebounceTimes s' !!! i = lastDebounceTimes s !!! i
  ∧ EEPROM s' = EEPROM s.
Proof.
  intros Hwf Hi s' b. subst s'.
  rewrite value_view, lastValue_view, cur_view, last_view, heldFlag_view,
    debounceTime_view, view_LoadState by done.
  repeat split; apply uint8_range.
Qed.

Lemma LoadState_overwrites_brightness_witness :
  let s := (boot (λ a, 400 + a) all_down).1 in
  let s' := LoadState s in
  let b := EEPROM_read (EEPROM s) (Z.of_nat 1 + EEPROM_DATA_OFFSET) in
  b = 145
  ∧ (Values s' !!! 1%nat = b ∧ lastValues s' !!! 1%nat = b ∧ 0 ≤ b ≤ 255)
  ∧ curButtonStates s' !!! 1%nat = curButtonStates s !!! 1%nat
  ∧ lastButtonStates s' !!! 1%nat = lastButtonStates s !!! 1%nat
  ∧ buttonsHeld s' !!! 1%nat = buttonsHeld s !!! 1%nat
  ∧ lastDebounceTimes s' !!! 1%nat = lastDebounceTimes s !!! 1%nat
  ∧ EEPROM s' = EEPROM s.
Proof.
  assert (L1 : (1 < NUM_COLORS)%nat) by (unfold NUM_COLORS; lia).
  intros s s' b. split; [by vm_compute|].
  apply (LoadState_overwrites_brightness s 1); [apply wf_boot|exact L1].
Defined.

(** X7: [LoadState()] followed by [SaveState()] leaves every EEPROM cell
    reading as it did. *)
Theorem load_then_save_keeps_eeprom s a :
  wf s →
  EEPROM_read (EEPROM (SaveState (LoadState s)).1) a
  = EEPROM_read (EEPROM s) a.
Proof.
  intros Hwf. rewrite SaveState_eq, fst_pair.
  change (EEPROM (set_EEPROM ?e (LoadState s))) with e.
  unfold saved_eeprom. rewrite EEPROM_LoadState.
  rewrite !value_view, !view_LoadState by (done || unfold NUM_COLORS; lia).
  chan. unfold EEPROM_read, EEPROM_write, EEPROM_DATA_OFFSET, uint8_of.
  destruct (Z.eqb_spec a 2) as [->|];
    [by rewrite !Z.mod_mod by lia|].
  destruct (Z.eqb_spec a 1) as [->|];
    [by rewrite !Z.mod_mod by lia|].
  destruct (Z.eqb_spec a 0) as [->|];
    [by rewrite !Z.mod_mod by lia|done].
Qed.

Lemma load_then_save_keeps_eeprom_witness :
  let s := power_on (λ a, 400 + a) in
  EEPROM_read (EEPROM (SaveState (LoadState s)).1) 1
  = EEPROM_read (EEPROM s) 1.
Proof.
  intros s. apply (load_then_save_keeps_eeprom s 1), wf_power_on.
Defined.

(** ** Debounce, once more *)

Lemma step_cur_iff ts r c :
  cur (channel_step ts r c) ≠ cur c
  ↔ r ≠ cur c ∧ r = last c ∧ 30 < ulong_of (ts - debounceTime c).
Proof.
  step_cases c; rewrite ?ulong_sub_self in *; split;
    first [intros (? & ? & ?) | intros ?]; try done; try lia;
    try (repeat split; congruence).
Qed.

(** X8: a call of [loop()] changes the stable state of a channel exactly
    when the reading differs from the stable state, equals the reading
    of the previous call, and more than 30 ms have passed since the last
    raw change; the new stable state is then the reading.  A reading seen
    for the first time is never committed, nor one that has lasted
    exactly 30 ms. *)
Theorem stable_state_changes_iff s inp i :
  wf s → (i < NUM_COLORS)%nat →
  let s' := (loop inp s).1 in
  (curButtonStates s' !!! i ≠ curButtonStates s !!! i
   ↔ reading inp i ≠ curButtonStates s !!! i
     ∧ reading inp i = lastButtonStates s !!! i
     ∧ 30 < elapsed (millis inp) i s)
  ∧ (curButtonStates s' !!! i ≠ curButtonStates s !!! i →
     curButtonStates s' !!! i = reading inp i).
Proof.
  intros Hwf Hi s'. subst s'. rewrite loop_cur by done. unfold stepped.
  rewrite cur_view, last_view, elapsed_view. split.
  - apply step_cur_iff.
  - apply step_cur_changed.
Qed.

Lemma stable_state_changes_iff_witness :
  let s := raw_press_240 in
  let inp := Input 131 (only_pin 10) in
  let s' := (loop inp s).1 in
  curButtonStates s' !!! 0%nat = HIGH
  ∧ (curButtonStates s' !!! 0%nat ≠ curButtonStates s !!! 0%nat
     ↔ reading inp 0 ≠ curButtonStates s !!! 0%nat
       ∧ reading inp 0 = lastButtonStates s !!! 0%nat
       ∧ 30 < elapsed (millis inp) 0 s)
  ∧ (curButtonStates s' !!! 0%nat ≠ curButtonStates s !!! 0%nat →
     curButtonStates s' !!! 0%nat = reading inp 0).
Proof.
  assert (L0 : (0 < NUM_COLORS)%nat) by (unfold NUM_COLORS; lia).
  intros s inp s'. split; [by vm_compute|].
  apply (stable_state_changes_iff s inp 0); [apply wf_boot|exact L0].
Defined.

Lemma step_raw_change ts r c :
  r ≠ last c →
  channel_step ts r c
  = Channel (value c) (lastValue c) (cur c) r (heldFlag c) (long_of ts).
Proof.
  step_cases c; rewrite ?ulong_sub_self in *; intros; try done; lia.
Qed.

Lemma saving_cur inp s i :
  wf s → (i < NUM_COLORS)%nat →
  saving inp s = true →
  holding (millis inp) (stepped inp s i) = true.
Proof.
  intros Hwf Hi Hs. rewrite saving_views in Hs by done. bools.
  by channels i Hi.
Qed.

(** X9: a call of [loop()] on which the reading of a channel differs
    from the reading of the previous call only restarts the timer of the
    channel: its stable state, brightness and hold flag stay as they
    were, and the save gesture does not fire on that call. *)
Theorem raw_change_only_restarts_timer s inp i :
  wf s → (i < NUM_COLORS)%nat →
  reading inp i ≠ lastButtonStates s !!! i →
  let s' := (loop inp s).1 in
  lastDebounceTimes s' !!! i = long_of (millis inp)
  ∧ elapsed (millis inp) i s' = 0
  ∧ lastButtonStates s' !!! i = reading inp i
  ∧ curButtonStates s' !!! i = curButtonStates s !!! i
  ∧ Values s' !!! i = Values s !!! i
  ∧ buttonsHeld s' !!! i = buttonsHeld s !!! i
  ∧ save_condition (millis inp) s' = false.
Proof.
  intros Hwf Hi Hr s'. subst s'.
  rewrite last_view in Hr.
  pose proof (step_raw_change (millis inp) _ _ Hr) as E.
  fold (stepped inp s i) in E.
  assert (Hs : saving inp s = false).
  { destruct (saving inp s) eqn:Hs; [|done].
    apply (saving_cur inp s i Hwf Hi) in Hs. rewrite E in Hs.
    unfold holding in Hs; chan. rewrite ulong_sub_self in Hs.
    by rewrite andb_false_r in Hs. }
  rewrite loop_save_condition, loop_debounceTime, loop_elapsed, loop_last,
    loop_cur, loop_Values, loop_held, Hs, E by done.
  chan. rewrite ulong_sub_self. done.
Qed.

Lemma raw_change_only_restarts_timer_witness :
  let s := (boot (λ _, 100) all_down).1 in
  let inp := Input 5000 (only_pin 11) in
  let s' := (loop inp s).1 in
  lastDebounceTimes s' !!! 0%nat = long_of (millis inp)
  ∧ elapsed (millis inp) 0 s' = 0
  ∧ lastButtonStates s' !!! 0%nat = reading inp 0
  ∧ curButtonStates s' !!! 0%nat = curButtonStates s !!! 0%nat
  ∧ Values s' !!! 0%nat = Values s !!! 0%nat
  ∧ buttonsHeld s' !!! 0%nat = buttonsHeld s !!! 0%nat
  ∧ save_condition (millis inp) s' = false.
Proof.
  assert (L0 : (0 < NUM_COLORS)%nat) by (unfold NUM_COLORS; lia).
  intros s inp s'.
  apply (raw_change_only_restarts_timer s inp 0);
    [apply wf_boot|exact L0|by vm_compute].
Defined.

(** ** When the brightness moves *)

Lemma step_rise ts r c :
  value (channel_step ts r c) ≠ value c →
  value (channel_step ts r c) ≠ 0 →
  r = LOW ∧ cur c ≠ LOW ∧ heldFlag c = 0
  ∧ cur (channel_step ts r c) = LOW
  ∧ value (channel_step ts r c) = bump (value c).
Proof.
  step_cases c; intros; try done.
  all: revert H H0; destruct (Z.eqb_spec r 0), (Z.eqb_spec h 0);
    cbn [andb]; intros; try done.
  all: repeat split; congruence.
Qed.

(** X10: the brightness of a channel takes a value other than 0 and
    other than the one it had only on a call of [loop()] that commits a
    release (the reading is released, the stable state was not and now
    is) with the hold flag clear; the new value is the old one plus 16,
    clamped to 255.  No step fires while the button is down. *)
Theorem brightness_rises_only_on_release s inp i :
  wf s → (i < NUM_COLORS)%nat →
  let v := Values s !!! i in
  let s' := (loop inp s).1 in
  0 ≤ v ≤ 255 →
  Values s' !!! i ≠ v → Values s' !!! i ≠ 0 →
  reading inp i = LOW
  ∧ curButtonStates s !!! i ≠ LOW
  ∧ curButtonStates s' !!! i = LOW
  ∧ buttonsHeld s !!! i = 0
  ∧ Values s' !!! i = Z.min (v + 16) 255.
Proof.
  intros Hwf Hi v s' Hv. subst s'.
  rewrite loop_Values, loop_cur by done. unfold stepped. subst v.
  rewrite value_view, cur_view, heldFlag_view in *. intros H1 H2.
  destruct (step_rise _ _ _ H1 H2) as (Hr & Hc & Hh & Hc' & Hb).
  repeat split; try done.
  rewrite Hb, bump_spec by done.
  destruct (Z.eqb_spec (value (view s i)) 255) as [E|]; [|done].
  rewrite Hb, E in H2. done.
Qed.

Lemma brightness_rises_only_on_release_witness :
  let s := tapping (λ _, 100) in
  let inp := Input 240 (all_pins LOW) in
  let s' := (loop inp s).1 in
  reading inp 0 = LOW
  ∧ curButtonStates s !!! 0%nat ≠ LOW
  ∧ curButtonStates s' !!! 0%nat = LOW
  ∧ buttonsHeld s !!! 0%nat = 0
  ∧ Values s' !!! 0%nat = Z.min (Values s !!! 0%nat + 16) 255.
Proof.
  assert (L0 : (0 < NUM_COLORS)%nat) by (unfold NUM_COLORS; lia).
  intros s inp s'.
  apply (brightness_rises_only_on_release s inp 0);
    [apply wf_boot|exact L0|by vm_compute..].
Defined.

(** X11: what a call of [loop()] leaves in the brightness, the last
    applied brightness, the stable state, the previous reading and the
    timestamp of a channel depends only on the time, on the reading of
    that channel and on what the arrays held for that channel: the
    other two buttons and channels have no part in it. *)
Theorem channels_are_independent s1 s2 inp1 inp2 i :
  wf s1 → wf s2 → (i < NUM_COLORS)%nat →
  millis inp1 = millis inp2 →
  reading inp1 i = reading inp2 i →
  view s1 i = view s2 i →
  let s1' := (loop inp1 s1).1 in
  let s2' := (loop inp2 s2).1 in
  Values s1' !!! i = Values s2' !!! i
  ∧ lastValues s1' !!! i = lastValues s2' !!! i
  ∧ curButtonStates s1' !!! i = curButtonStates s2' !!! i
  ∧ lastButtonStates s1' !!! i = lastButtonStates s2' !!! i
  ∧ lastDebounceTimes s1' !!! i = lastDebounceTimes s2' !!! i.
Proof.
  intros Hwf1 Hwf2 Hi Ht Hr Hv s1' s2'. subst s1' s2'.
  rewrite !loop_Values, !loop_lastValues, !loop_cur, !loop_last,
    !loop_debounceTime by done.
  unfold stepped. by rewrite Ht, Hr, Hv.
Qed.

Lemma channels_are_independent_witness :
  let s1 := first_down in
  let s2 := (boot (λ _, 100) all_down).1 in
  let inp1 := Input 1700 (only_pin 10) in
  let inp2 := Input 1700 (all_pins HIGH) in
  let s1' := (loop inp1 s1).1 in
  let s2' := (loop inp2 s2).1 in
  Values s1' !!! 0%nat = Values s2' !!! 0%nat
  ∧ lastValues s1' !!! 0%nat = lastValues s2' !!! 0%nat
  ∧ curButtonStates s1' !!! 0%nat = curButtonStates s2' !!! 0%nat
  ∧ lastButtonStates s1' !!! 0%nat = lastButtonStates s2' !!! 0%nat
  ∧ lastDebounceTimes s1' !!! 0%nat = lastDebounceTimes s2' !!! 0%nat.
Proof.
  assert (L0 : (0 < NUM_COLORS)%nat) by (unfold NUM_COLORS; lia).
  intros s1 s2 inp1 inp2 s1' s2'.
  apply (channels_are_independent s1 s2 inp1 inp2 0);
    [apply wf_boot|apply wf_boot|exact L0|by vm_compute..].
Defined.

Lemma step_quiet ts r c :
  cur (channel_step ts r c) = cur c → cur c ≠ HIGH →
  value (channel_step ts r c) = value c
  ∧ heldFlag (channel_step ts r c) = heldFlag c.
Proof. step_cases c; intros; first [done | lia | congruence]. Qed.

Lemma quiet_loop inp i s :
  wf s → (i < NUM_COLORS)%nat →
  curButtonStates s !!! i = LOW →
  curButtonStates (loop inp s).1 !!! i = LOW →
  Values (loop inp s).1 !!! i = Values s !!! i
  ∧ buttonsHeld (loop inp s).1 !!! i = buttonsHeld s !!! i.
Proof.
  intros Hwf Hi Hc Hc'. rewrite loop_cur in Hc' by done.
  rewrite loop_Values, loop_held by done.
  assert (Hs : saving inp s = false).
  { destruct (saving inp s) eqn:Hs; [|done].
    apply (saving_cur inp s i Hwf Hi) in Hs. unfold holding in Hs. bools.
    rewrite Hc' in *. done. }
  rewrite Hs. unfold stepped in *. rewrite cur_view in Hc.
  apply step_quiet; rewrite Hc; [done|discriminate].
Qed.

(** X12: through any calls of [loop()] that leave the stable state of a
    channel released, the brightness and the hold flag of the channel
    stay as they were, whatever its pin reads and however long it
    lasts. *)
Theorem released_channel_keeps_brightness s i ins :
  wf s → (i < NUM_COLORS)%nat →
  curButtonStates s !!! i = LOW →
  along (λ _ _ s', curButtonStates s' !!! i = LOW) ins s →
  Values (run ins s).1 !!! i = Values s !!! i
  ∧ buttonsHeld (run ins s).1 !!! i = buttonsHeld s !!! i.
Proof.
  intros Hwf Hi Hc Hal.
  enough (wf (run ins s).1 ∧ curButtonStates (run ins s).1 !!! i = LOW
          ∧ Values (run ins s).1 !!! i = Values s !!! i
          ∧ buttonsHeld (run ins s).1 !!! i = buttonsHeld s !!! i) by tauto.
  revert Hal. apply along_run_inv with
    (J := λ s1, wf s1 ∧ curButtonStates s1 !!! i = LOW
                ∧ Values s1 !!! i = Values s !!! i
                ∧ buttonsHeld s1 !!! i = buttonsHeld s !!! i)
    (P := λ _ _ s', curButtonStates s' !!! i = LOW); [|done].
  intros inp s1 (Hwf1 & Hc1 & Hv1 & Hh1) Hc2.
  destruct (quiet_loop inp i s1 Hwf1 Hi Hc1 Hc2) as [Hv Hh].
  split; [by apply wf_loop|]. split; [done|]. by rewrite Hv, Hh.
Qed.

Lemma released_channel_keeps_brightness_witness :
  let s := (boot (λ _, 100) []).1 in
  let ins := [Input 100 (only_pin 10); Input 120 (all_pins LOW);
              Input 125 (only_pin 10); Input 154 (all_pins LOW)] in
  Values (run ins s).1 !!! 0%nat = Values s !!! 0%nat
  ∧ buttonsHeld (run ins s).1 !!! 0%nat = buttonsHeld s !!! 0%nat.
Proof.
  assert (L0 : (0 < NUM_COLORS)%nat) by (unfold NUM_COLORS; lia).
  intros s ins.
  apply (released_channel_keeps_brightness s 0 ins);
    [apply wf_boot|exact L0|by vm_compute..].
Defined.

(** X13: a press too short to be debounced does nothing: when a
    released channel at rest sees its pin at another level only on calls
    less than 30 ms after the first of them and then released again, its
    stable state, brightness and hold flag are after these calls what
    they were before. *)
Theorem short_press_does_nothing s i r f0 fs rest :
  wf s → (i < NUM_COLORS)%nat →
  curButtonStates s !!! i = LOW → lastButtonStates s !!! i = LOW →
  r ≠ LOW →
  Forall (λ inp, reading inp i = r ∧ ulong_of (millis inp - millis f0) < 30)
         (f0 :: fs) →
  Forall (λ inp, reading inp i = LOW) rest →
  let s' := (run ((f0 :: fs) ++ rest) s).1 in
  curButtonStates s' !!! i = LOW
  ∧ Values s' !!! i = Values s !!! i
  ∧ buttonsHeld s' !!! i = buttonsHeld s !!! i.
Proof.
  intros Hwf Hi Hc Hl Hne Hfl Hrest s'. subst s'.
  apply Forall_cons in Hfl as [[Hr0 _] Hfs].
  assert (H1 : flickering i LOW r (millis f0) (loop f0 s).1).
  { apply flicker_start; try done. by rewrite Hl. }
  pose proof H1 as (_ & Hc1 & _).
  destruct (quiet_loop f0 i s Hwf Hi Hc Hc1) as [Hv1 Hh1].
  rewrite run_app, fst_pair, run_cons, fst_pair.
  set (K := λ s1, Values s1 !!! i = Values s !!! i
                  ∧ buttonsHeld s1 !!! i = buttonsHeld s !!! i).
  assert (H2 : flickering i LOW r (millis f0) (run fs (loop f0 s).1).1
               ∧ K (run fs (loop f0 s).1).1).
  { eapply run_inv with
      (I := λ s1, flickering i LOW r (millis f0) s1 ∧ K s1);
      [|by split|exact Hfs].
    intros inp s1 [Hf [Hv Hh]] Hin.
    pose proof (flickering_loop _ _ _ _ _ _ Hi Hf Hin) as Hf'.
    destruct Hf as (Hwf1 & Hcs & _). pose proof Hf' as (_ & Hcs' & _).
    destruct (quiet_loop inp i s1 Hwf1 Hi Hcs Hcs') as [Hv' Hh'].
    split; [done|]. split; congruence. }
  destruct H2 as [(Hwf2 & Hc2 & _) HK2].
  enough ((wf (run rest (run fs (loop f0 s).1).1).1
           ∧ curButtonStates (run rest (run fs (loop f0 s).1).1).1 !!! i
             = LOW)
          ∧ K (run rest (run fs (loop f0 s).1).1).1) as [[_ ?] [? ?]]
    by done.
  eapply run_inv with
    (I := λ s1, (wf s1 ∧ curButtonStates s1 !!! i = LOW) ∧ K s1);
    [|by split|exact Hrest].
  intros inp s1 [Hs1 [Hv Hh]] Hin.
  pose proof (settled_loop _ _ _ _ Hi Hs1 Hin) as Hs1'.
  destruct Hs1 as [Hwf1 Hcs]. pose proof Hs1' as [_ Hcs'].
  destruct (quiet_loop inp i s1 Hwf1 Hi Hcs Hcs') as [Hv' Hh'].
  split; [done|]. split; congruence.
Qed.

Lemma short_press_does_nothing_witness :
  let s := (boot (λ _, 100) []).1 in
  let f0 := Input 4294967290 (only_pin 12) in
  let fs := [Input 4294967295 (only_pin 12); Input 20 (only_pin 12)] in
  let rest := [Input 25 (all_pins LOW); Input 900 (all_pins LOW)] in
  let s' := (run ((f0 :: fs) ++ rest) s).1 in
  curButtonStates s' !!! 2%nat = LOW
  ∧ Values s' !!! 2%nat = Values s !!! 2%nat
  ∧ buttonsHeld s' !!! 2%nat = buttonsHeld s !!! 2%nat.
Proof.
  assert (L2 : (2 < NUM_COLORS)%nat) by (unfold NUM_COLORS; lia).
  assert (N : HIGH ≠ LOW) by discriminate.
  intros s f0 fs rest s'.
  apply (short_press_does_nothing s 2 HIGH f0 fs rest);
    [apply wf_boot|exact L2|reflexivity|reflexivity|exact N
    |repeat constructor|repeat constructor].
Defined.

(** ** The timer *)

Lemma stamped_loop i t0 r inp s :
  (i < NUM_COLORS)%nat →
  wf s ∧ lastButtonStates s !!! i = r
  ∧ lastDebounceTimes s !!! i = long_of t0 →
  reading inp i = r →
  wf (loop inp s).1 ∧ lastButtonStates (loop inp s).1 !!! i = r
  ∧ lastDebounceTimes (loop inp s).1 !!! i = long_of t0.
Proof.
  intros Hi (Hwf & Hl & Ht) Hr. split; [by apply wf_loop|].
  rewrite loop_last, loop_debounceTime by done. split; [done|].
  unfold stepped.
  by rewrite step_debounceTime, <- last_view, Hl, Hr, Z.eqb_refl,
    <- debounceTime_view.
Qed.

(** X14: the time the guards compare with their thresholds is counted
    from the call that saw the raw change, modulo 2^32: as long as the
    reading stays the same, for a raw change seen at the true time [T0]
    and a call at the true time [T] less than 2^32 ms later, the elapsed
    time is [T - T0], also when the 32-bit counter has wrapped in
    between. *)
Theorem timer_survives_counter_wrap s inp i ins T0 T :
  wf s → (i < NUM_COLORS)%nat →
  reading inp i ≠ lastButtonStates s !!! i →
  Forall (λ inp', reading inp' i = reading inp i) ins →
  millis inp = ulong_of T0 →
  0 ≤ T - T0 < 2 ^ 32 →
  elapsed (ulong_of T) i (run ins (loop inp s).1).1 = T - T0.
Proof.
  intros Hwf Hi Hr Hall Ht0 HT.
  assert (H1 : wf (loop inp s).1
               ∧ lastButtonStates (loop inp s).1 !!! i = reading inp i
               ∧ lastDebounceTimes (loop inp s).1 !!! i
                 = long_of (millis inp)).
  { split; [by apply wf_loop|].
    rewrite loop_last, loop_debounceTime by done. split; [done|].
    rewrite last_view in Hr. unfold stepped.
    by rewrite step_raw_change. }
  assert (H2 : wf (run ins (loop inp s).1).1
               ∧ lastButtonStates (run ins (loop inp s).1).1 !!! i
                 = reading inp i
               ∧ lastDebounceTimes (run ins (loop inp s).1).1 !!! i
                 = long_of (millis inp)).
  { eapply run_inv with
      (I := λ s1, wf s1 ∧ lastButtonStates s1 !!! i = reading inp i
                  ∧ lastDebounceTimes s1 !!! i = long_of (millis inp));
      [|exact H1|exact Hall].
    intros inp' s1. by apply stamped_loop. }
  destruct H2 as (_ & _ & Ht). unfold elapsed. rewrite Ht, Ht0.
  rewrite ulong_sub_long. unfold ulong_of.
  rewrite <- Zminus_mod. by apply Z.mod_small.
Qed.

Lemma timer_survives_counter_wrap_witness :
  let s := (boot zero_eeprom []).1 in
  let inp := Input (ulong_of 4294967000) (only_pin 10) in
  let ins := [Input 4294967200 (only_pin 10); Input 100 (only_pin 10)] in
  elapsed (ulong_of 4294968296) 0 (run ins (loop inp s).1).1
  = 4294968296 - 4294967000.
Proof.
  assert (L0 : (0 < NUM_COLORS)%nat) by (unfold NUM_COLORS; lia).
  assert (R : 0 ≤ 4294968296 - 4294967000 < 2 ^ 32) by lia.
  intros s inp ins.
  apply (timer_survives_counter_wrap s inp 0 ins 4294967000 4294968296);
    [apply wf_boot|exact L0|by vm_compute|repeat constructor
    |reflexivity|exact R].
Defined.

(** ** After the save gesture *)

Lemma step_held_value ts r c :
  heldFlag c ≠ 0 →
  value (channel_step ts r c) = value c ∨ value (channel_step ts r c) = 0.
Proof.
  step_cases c; intros; try (by auto).
  all: eqbs; first [by auto | lia].
Qed.

(** X15: the save gesture costs no tap.  After a call of [loop()] on
    which the gesture fired, through the calls that keep a channel
    stably pressed and the call after them, the one that commits the
    release included, the brightness of the channel is what the gesture
    saved or 0 (the hold-clear): no increment fires. *)
Theorem save_gesture_suppresses_tap s inp i ins rel :
  wf s → (i < NUM_COLORS)%nat →
  let s1 := (loop inp s).1 in
  save_condition (millis inp) s1 = true →
  along (λ _ _ s2, curButtonStates s2 !!! i = HIGH) ins s1 →
  let s3 := (loop rel (run ins s1).1).1 in
  Values s3 !!! i = Values s1 !!! i ∨ Values s3 !!! i = 0.
Proof.
  intros Hwf Hi s1 Hs Hal s3.
  set (J := λ s2, wf s2 ∧ curButtonStates s2 !!! i = HIGH
                  ∧ buttonsHeld s2 !!! i ≠ 0
                  ∧ (Values s2 !!! i = Values s1 !!! i
                     ∨ Values s2 !!! i = 0)).
  assert (H1 : J s1).
  { subst s1. rewrite loop_save_condition in Hs by done.
    split; [by apply wf_loop|].
    rewrite loop_cur, loop_held, Hs by done.
    apply (saving_cur inp s i Hwf Hi) in Hs. unfold holding in Hs. bools.
    split; [done|]. split; [done|by left]. }
  assert (H2 : J (run ins s1).1).
  { revert Hal. apply along_run_inv with
      (J := J) (P := λ _ _ s2, curButtonStates s2 !!! i = HIGH); [|done].
    intros inp' s2 (Hwf2 & Hc2 & Hh2 & Hv2) Hc'.
    split; [by apply wf_loop|]. split; [done|].
    rewrite loop_cur in Hc' by done.
    rewrite loop_held, loop_Values by done. unfold stepped in *. split.
    - destruct (saving inp' s2); [done|].
      apply step_held_pressed; by rewrite <- ?heldFlag_view, <- ?cur_view.
    - rewrite heldFlag_view in Hh2.
      destruct (step_held_value (millis inp') (reading inp' i) _ Hh2)
        as [E|E]; rewrite E, <- ?value_view; auto. }
  destruct H2 as (Hwf2 & _ & Hh2 & Hv2). subst s3.
  rewrite loop_Values by done. unfold stepped.
  rewrite heldFlag_view in Hh2.
  destruct (step_held_value (millis rel) (reading rel i) _ Hh2)
    as [E|E]; rewrite E, <- ?value_view; auto.
Qed.

Lemma save_gesture_suppresses_tap_witness :
  let s := (boot (λ _, 100) all_down).1 in
  let inp := Input 1200 (all_pins HIGH) in
  let ins := [Input 1510 (only_pin 11)] in
  let rel := Input 1541 (only_pin 11) in
  let s1 := (loop inp s).1 in
  let s3 := (loop rel (run ins s1).1).1 in
  (Values s1 !!! 0%nat = 100 ∧ curButtonStates s3 !!! 0%nat = LOW)
  ∧ (Values s3 !!! 0%nat = Values s1 !!! 0%nat ∨ Values s3 !!! 0%nat = 0).
Proof.
  assert (L0 : (0 < NUM_COLORS)%nat) by (unfold NUM_COLORS; lia).
  intros s inp ins rel s1 s3. split; [by vm_compute|].
  apply (save_gesture_suppresses_tap s inp 0 ins rel);
    [apply wf_boot|exact L0|by vm_compute..].
Defined.

(** X16: held too long, the gesture saves darkness.  A call of [loop()]
    that leaves all three stable states pressed with more than 1500 ms
    since each channel's last raw transition leaves all three brightness
    values at 0 and the three EEPROM cells reading 0, whatever was set or
    saved before. *)
Theorem long_hold_saves_zeros s inp :
  wf s →
  let s' := (loop inp s).1 in
  (∀ k, (k < NUM_COLORS)%nat →
     curButtonStates s' !!! k = HIGH
     ∧ HOLD_TIME_CLEAR < elapsed (millis inp) k s') →
  Values s' = [0; 0; 0]
  ∧ EEPROM_read (EEPROM s') 0 = 0
  ∧ EEPROM_read (EEPROM s') 1 = 0
  ∧ EEPROM_read (EEPROM s') 2 = 0.
Proof.
  intros Hwf s' H. subst s'.
  assert (Hs : saving inp s = true).
  { apply saving_intro; [done|]. intros k Hk.
    destruct (H k Hk) as [? ?]. split; [done|].
    unfold HOLD_TIME_SAVE, HOLD_TIME_CLEAR in *. lia. }
  assert (Hz : ∀ k, (k < NUM_COLORS)%nat → Values (loop inp s).1 !!! k = 0).
  { intros k Hk. destruct (H k Hk) as [Hc He]. revert Hc He.
    rewrite loop_cur, loop_elapsed, loop_Values by done.
    unfold HOLD_TIME_CLEAR. intros Hc He.
    by destruct (step_hold _ _ _ Hc He). }
  assert (L0 : (0 < NUM_COLORS)%nat) by (unfold NUM_COLORS; lia).
  assert (L1 : (1 < NUM_COLORS)%nat) by (unfold NUM_COLORS; lia).
  assert (L2 : (2 < NUM_COLORS)%nat) by (unfold NUM_COLORS; lia).
  pose proof (Hz 0%nat L0) as H0. pose proof (Hz 1%nat L1) as H1.
  pose proof (Hz 2%nat L2) as H2.
  split.
  - destruct (wf_loop inp s Hwf) as (Hlen & _). revert Hlen H0 H1 H2.
    generalize (Values (loop inp s).1).
    intros [|a [|b [|c [|d l]]]]; try discriminate.
    cbn [lookup_total list_lookup_total]. by intros _ -> -> ->.
  - rewrite EEPROM_loop, Hs by done.
    destruct (read_saved_eeprom (checked inp s)) as (-> & -> & ->).
    rewrite <- Values_loop_checked, H0, H1, H2 by done. done.
Qed.

Lemma long_hold_saves_zeros_witness :
  let s := (boot (λ _, 100) (all_down ++ [Input 1200 (all_pins HIGH)])).1 in
  let inp := Input 1650 (all_pins HIGH) in
  let s' := (loop inp s).1 in
  (Values s = [100; 100; 100] ∧ EEPROM_read (EEPROM s) 0 = 100)
  ∧ Values s' = [0; 0; 0]
  ∧ EEPROM_read (EEPROM s') 0 = 0
  ∧ EEPROM_read (EEPROM s') 1 = 0
  ∧ EEPROM_read (EEPROM s') 2 = 0.
Proof.
  assert (L : ∀ k, (k < NUM_COLORS)%nat → k = 0%nat ∨ k = 1%nat ∨ k = 2%nat)
    by (unfold NUM_COLORS; lia).
  intros s inp s'. split; [by vm_compute|].
  apply (long_hold_saves_zeros s inp); [apply wf_boot|].
  intros k Hk. destruct (L k Hk) as [-> | [-> | ->]]; by vm_compute.
Defined.

(** ** Idle calls *)

Lemma list3_ext (l l' : list Z) :
  length l = NUM_COLORS → length l' = NUM_COLORS →
  (∀ i, (i < NUM_COLORS)%nat → l !!! i = l' !!! i) → l = l'.
Proof.
  unfold NUM_COLORS.
  destruct l as [|a [|b [|c [|d l]]]]; try discriminate.
  destruct l' as [|a' [|b' [|c' [|d' l']]]]; try discriminate.
  intros _ _ H.
  pose proof (H 0%nat ltac:(lia)) as H0.
  pose proof (H 1%nat ltac:(lia)) as H1.
  pose proof (H 2%nat ltac:(lia)) as H2.
  cbn [lookup_total list_lookup_total] in *. by subst.
Qed.

Lemma state_ext s s' :
  wf s → wf s' →
  (∀ i, (i < NUM_COLORS)%nat → view s i = view s' i) →
  EEPROM s = EEPROM s' → s = s'.
Proof.
  destruct s as [V LV C L H T E], s' as [V' LV' C' L' H' T' E'].
  unfold wf, view; proj. intros (?&?&?&?&?&?) (?&?&?&?&?&?) Hv ->.
  f_equal; apply list3_ext; try done;
    intros i Hi; specialize (Hv i Hi); congruence.
Qed.

(** X17: an idle call does nothing.  In every run, a call of [loop()]
    that finds every channel released, with its previous reading
    released, and reads every pin released, leaves all globals and the
    EEPROM exactly as they were and has no hardware effect, however much
    time has passed. *)
Theorem idle_call_is_noop e ins inp :
  let s := (boot e ins).1 in
  (∀ i, (i < NUM_COLORS)%nat →
     curButtonStates s !!! i = LOW ∧ lastButtonStates s !!! i = LOW
     ∧ reading inp i = LOW) →
  loop inp s = (s, []).
Proof.
  intros s Hidle. destruct (inv_boot e ins) as [Hwf Hinv]. fold s in Hwf, Hinv.
  assert (L0 : (0 < NUM_COLORS)%nat) by (unfold NUM_COLORS; lia).
  assert (L1 : (1 < NUM_COLORS)%nat) by (unfold NUM_COLORS; lia).
  assert (L2 : (2 < NUM_COLORS)%nat) by (unfold NUM_COLORS; lia).
  assert (Hst : ∀ i, (i < NUM_COLORS)%nat →
            stepped inp s i = view s i ∧ lastValue (view s i) = value (view s i)).
  { intros i Hi. destruct (Hidle i Hi) as (Hc & Hl & Hr).
    destruct (Hinv i Hi) as (_ & Hlv & _).
    rewrite cur_view in Hc. rewrite last_view in Hl.
    rewrite lastValue_view, value_view in Hlv. split; [|done].
    unfold stepped. rewrite Hr.
    destruct (step_idle (millis inp) LOW (view s i)) as [Hv Hh];
      [done|by rewrite Hc|].
    pose proof (step_cur_same (millis inp) LOW (view s i)
                  ltac:(by rewrite Hc)) as Hcu.
    pose proof (step_debounceTime (millis inp) LOW (view s i)) as Hd.
    pose proof (step_lastValue (millis inp) LOW (view s i)) as Hlv'.
    pose proof (step_last (millis inp) LOW (view s i)) as Hla.
    rewrite Hl, Z.eqb_refl in Hd.
    destruct (channel_step (millis inp) LOW (view s i)), (view s i).
    chan. congruence. }
  assert (Hs : saving inp s = false).
  { destruct (saving inp s) eqn:Hs; [|done].
    apply (saving_cur inp s 0 Hwf L0) in Hs.
    destruct (Hst 0%nat L0) as [E _]. destruct (Hidle 0%nat L0) as (Hc & _).
    rewrite E in Hs. unfold holding in Hs. rewrite <- cur_view, Hc in Hs.
    done. }
  assert (Hev : ∀ i, (i < NUM_COLORS)%nat →
            apply_event (check_channels inp s) i = []).
  { intros i Hi. destruct (Hst i Hi) as [E Hlv]. unfold apply_event.
    rewrite value_view, lastValue_view, view_check_channels, stepped_eq, E,
      Hlv, Z.eqb_refl by done. done. }
  rewrite (surjective_pairing (loop inp s)). f_equal.
  - apply state_ext; [by apply wf_loop|done| |].
    + intros i Hi. destruct (Hst i Hi) as [E Hlv].
      rewrite view_loop, Hs, E by done.
      destruct (view s i). chan. by subst.
    + by rewrite EEPROM_loop, Hs.
  - rewrite loop_eq, snd_pair, Hs, !Hev by done. done.
Qed.

Lemma idle_call_is_noop_witness :
  let s := (boot (λ _, 100) [Input 100 (only_pin 10);
                             Input 110 (all_pins LOW)]).1 in
  let inp := Input 86400000 (all_pins LOW) in
  loop inp s = (s, []).
Proof.
  assert (L : ∀ k, (k < NUM_COLORS)%nat → k = 0%nat ∨ k = 1%nat ∨ k = 2%nat)
    by (unfold NUM_COLORS; lia).
  intros s inp.
  apply (idle_call_is_noop (λ _, 100)
           [Input 100 (only_pin 10); Input 110 (all_pins LOW)] inp).
  intros k Hk. destruct (L k Hk) as [-> | [-> | ->]]; by vm_compute.
Defined.

(** ** The cycle of brightness values *)

Lemma wf_iter_increment k i s : wf s → wf (Nat.iter k (increment i) s).
Proof.
  intros. induction k; [done|]. rewrite Nat.iter_succ. auto with wfdb.
Qed.

Lemma Values_iter_increment k i s :
  wf s → (i < NUM_COLORS)%nat →
  Values (Nat.iter k (increment i) s) !!! i = Nat.iter k bump (Values s !!! i).
Proof.
  intros Hwf Hi. induction k as [|k IH]; [done|]. rewrite !Nat.iter_succ.
  rewrite value_view, view_increment by (done || by apply wf_iter_increment).
  chan. by rewrite <- value_view, IH.
Qed.

Lemma iter_bump k v :
  0 ≤ v ≤ 255 → v + 16 * Z.of_nat k < 271 →
  Nat.iter k bump v = Z.min (v + 16 * Z.of_nat k) 255.
Proof.
  intros Hv. induction k as [|k IH]; intros Hk; [cbn; lia|].
  rewrite Nat.iter_succ, IH, bump_spec by lia.
  destruct (Z.eqb_spec (Z.min (v + 16 * Z.of_nat k) 255) 255); lia.
Qed.

(** X18: tapping cycles through the values.  From a brightness [v] in
    [0,255], the increment of lines 110-115 adds 16 at each application
    as long as 255 is not reached, gives 255 after
    [(270 - v) / 16] applications (16 at most) and 0 at the next. *)
Theorem increments_reach_255_then_0 s i :
  wf s → (i < NUM_COLORS)%nat →
  let v := Values s !!! i in
  let k := Z.to_nat ((270 - v) / 16) in
  0 ≤ v ≤ 255 →
  (k ≤ 16)%nat
  ∧ (∀ j, (j < k)%nat →
       Values (Nat.iter j (increment i) s) !!! i = v + 16 * Z.of_nat j)
  ∧ Values (Nat.iter k (increment i) s) !!! i = 255
  ∧ Values (Nat.iter (S k) (increment i) s) !!! i = 0.
Proof.
  intros Hwf Hi v k Hv.
  assert (Hk : 16 * Z.of_nat k ≤ 270 - v < 16 * Z.of_nat k + 16).
  { subst k. rewrite Z2Nat.id by (apply Z.div_pos; lia).
    pose proof (Z.div_mod (270 - v) 16 ltac:(lia)).
    pose proof (Z.mod_pos_bound (270 - v) 16 ltac:(lia)). lia. }
  assert (E : Values (Nat.iter k (increment i) s) !!! i = 255).
  { rewrite Values_iter_increment by done. fold v.
    rewrite iter_bump by lia. lia. }
  split; [lia|]. split; [|split; [exact E|]].
  - intros j Hj. rewrite Values_iter_increment by done. fold v.
    rewrite iter_bump by lia. lia.
  - rewrite Nat.iter_succ.
    rewrite value_view, view_increment by (done || by apply wf_iter_increment).
    chan. by rewrite <- value_view, E.
Qed.

Lemma increments_reach_255_then_0_witness :
  let s := (boot (λ _, 100) []).1 in
  Values (Nat.iter 10 (increment 1) s) !!! 1%nat = 255
  ∧ Values (Nat.iter 11 (increment 1) s) !!! 1%nat = 0.
Proof.
  assert (L1 : (1 < NUM_COLORS)%nat) by (unfold NUM_COLORS; lia).
  intros s.
  destruct (increments_reach_255_then_0 s 1) as (_ & _ & H1 & H2);
    [apply wf_boot|exact L1|by vm_compute|].
  split; [exact H1|exact H2].
Defined.


(** ** Changes reach the outputs *)

(** X19: in every run, a call of [loop()] that changes the brightness
    of a channel writes the new brightness to the output of the channel
    during that same call. *)
Theorem change_is_written_at_once e ins inp i :
  (i < NUM_COLORS)%nat →
  let s := (boot e ins).1 in
  let s' := (loop inp s).1 in
  Values s' !!! i ≠ Values s !!! i →
  AnalogWrite (OUTPUTS !!! i) (Values s' !!! i) ∈ (loop inp s).2.
Proof.
  intros Hi s s' Hne. destruct (inv_boot e ins) as [Hwf Hinv].
  fold s in Hwf, Hinv. destruct (Hinv i Hi) as (_ & Hlv & _).
  subst s'. revert Hne. rewrite loop_Values by done. intros Hne.
  assert (E : apply_event (check_channels inp s) i
              = [AnalogWrite (OUTPUTS !!! i) (value (stepped inp s i))]).
  { unfold apply_event.
    rewrite value_view, lastValue_view, view_check_channels, stepped_eq
      by done.
    unfold stepped at 2. rewrite step_lastValue, <- lastValue_view, Hlv.
    by destruct (Z.eqb_spec (value (stepped inp s i)) (Values s !!! i)). }
  rewrite loop_eq, snd_pair by done. apply elem_of_app. left.
  channels i Hi; rewrite E; rewrite !elem_of_app, list_elem_of_singleton;
    auto.
Qed.

Lemma change_is_written_at_once_witness :
  let ins := [Input 100 (only_pin 10); Input 140 (only_pin 10)] in
  let s := (boot (λ _, 100) ins).1 in
  let inp := Input 1700 (only_pin 10) in
  Values (loop inp s).1 !!! 0%nat = 0
  ∧ AnalogWrite (OUTPUTS !!! 0%nat) (Values (loop inp s).1 !!! 0%nat)
    ∈ (loop inp s).2.
Proof.
  assert (L0 : (0 < NUM_COLORS)%nat) by (unfold NUM_COLORS; lia).
  intros ins s inp. split; [by vm_compute|].
  apply (change_is_written_at_once (λ _, 100) ins inp 0 L0).
  by vm_compute.
Defined.

(** ** Blocking and repeating *)

Lemma blocked_app tr tr' : blocked (tr ++ tr') = blocked tr + blocked tr'.
Proof.
  induction tr as [|ev tr IH]; cbn [app blocked]; [done|].
  destruct ev; lia.
Qed.

Lemma blocked_apply_event s i : blocked (apply_event s i) = 0.
Proof. unfold apply_event. by destruct (negb _). Qed.

(** X20: a call of [loop()] spends 300 ms in [delay()] when the save
    gesture fires on it and none otherwise. *)
Theorem loop_blocks_only_for_blink s inp :
  wf s →
  blocked (loop inp s).2
  = if save_condition (millis inp) (loop inp s).1 then 3 * BLINK_DELAY else 0.
Proof.
  intros Hwf. rewrite loop_save_condition, loop_eq, snd_pair by done.
  rewrite !blocked_app, !blocked_apply_event.
  destruct (saving inp s); [|done].
  rewrite blocked_app, blink_eq. reflexivity.
Qed.

Lemma loop_blocks_only_for_blink_witness :
  let s := (boot (λ _, 100) all_down).1 in
  let inp := Input 1200 (all_pins HIGH) in
  save_condition (millis inp) (loop inp s).1 = true
  ∧ blocked (loop inp s).2
    = if save_condition (millis inp) (loop inp s).1
      then 3 * BLINK_DELAY else 0.
Proof.
  intros s inp. split; [by vm_compute|].
  apply (loop_blocks_only_for_blink s inp), wf_boot.
Defined.

Lemma step_settled ts r c :
  30 < ulong_of (ts - debounceTime (channel_step ts r c)) →
  cur (channel_step ts r c) = r.
Proof.
  step_cases c; rewrite ?ulong_sub_self in *; intros; try lia.
  all: destruct (Z.eqb_spec r cu); first [done | lia].
Qed.

(** X21: the save gesture is not latched.  After a call of [loop()] on
    which it fired, a call that reads the three pins as before, at a
    time that is still more than 1000 ms after each channel's last raw
    transition, fires it again: the blink and the three EEPROM writes are
    repeated. *)
Theorem save_gesture_fires_again s inp inp' :
  wf s →
  let s1 := (loop inp s).1 in
  save_condition (millis inp) s1 = true →
  (∀ k, (k < NUM_COLORS)%nat →
     reading inp' k = reading inp k
     ∧ HOLD_TIME_SAVE < elapsed (millis inp') k s1) →
  let s2 := (loop inp' s1).1 in
  save_condition (millis inp') s2 = true
  ∧ (loop inp' s1).2
    = (apply_changes (check_channels inp' s1)).2
      ++ blink s2 ++ (SaveState s2).2.
Proof.
  intros Hwf s1 Hs H s2.
  pose proof (wf_loop inp s Hwf) as Hwf1. fold s1 in Hwf1.
  assert (Hs1 : saving inp s = true)
    by (by rewrite <- loop_save_condition).
  assert (Hs2 : saving inp' s1 = true).
  { apply saving_intro; [done|]. intros k Hk.
    destruct (H k Hk) as [Hr He].
    apply (saving_cur inp s k Hwf Hk) in Hs1. unfold holding in Hs1. bools.
    rewrite ulong_HOLD_TIME_SAVE in *.
    assert (Hrd : reading inp k = HIGH).
    { unfold stepped in *.
      rewrite <- (step_settled (millis inp) (reading inp k) (view s k));
        [done|lia]. }
    assert (Hc : cur (view s1 k) = HIGH)
      by (subst s1; by rewrite <- cur_view, loop_cur).
    assert (Hl : lastButtonStates s1 !!! k = HIGH)
      by (subst s1; by rewrite loop_last).
    rewrite loop_cur, loop_elapsed by done. unfold stepped.
    rewrite step_cur_same by (by rewrite Hr, Hrd, Hc).
    rewrite step_debounceTime, <- last_view, Hl, Hr, Hrd, Z.eqb_refl.
    by rewrite <- elapsed_view. }
  split; [subst s2; by rewrite loop_save_condition|].
  subst s2. rewrite SaveState_eq, snd_pair, blink_eq. unfold save_events.
  rewrite (Values_loop_checked inp' s1 Hwf1).
  rewrite loop_eq, snd_pair, Hs2, <- trace_apply_changes, blink_eq by done.
  reflexivity.
Qed.

Lemma save_gesture_fires_again_witness :
  let s := (boot (λ _, 100) all_down).1 in
  let inp := Input 1200 (all_pins HIGH) in
  let inp' := Input 1500 (all_pins HIGH) in
  let s1 := (loop inp s).1 in
  let s2 := (loop inp' s1).1 in
  save_condition (millis inp') s2 = true
  ∧ (loop inp' s1).2
    = (apply_changes (check_channels inp' s1)).2
      ++ blink s2 ++ (SaveState s2).2.
Proof.
  assert (L : ∀ k, (k < NUM_COLORS)%nat → k = 0%nat ∨ k = 1%nat ∨ k = 2%nat)
    by (unfold NUM_COLORS; lia).
  intros s inp inp' s1 s2.
  apply (save_gesture_fires_again s inp inp'); [apply wf_boot|by vm_compute|].
  intros k Hk. destruct (L k Hk) as [-> | [-> | ->]]; by vm_compute.
Defined.

(** ** The rest of the EEPROM *)

Lemma saved_eeprom_other s a :
  a ≠ 0 → a ≠ 1 → a ≠ 2 → saved_eeprom s a = EEPROM s a.
Proof.
  intros H0 H1 H2. unfold saved_eeprom, EEPROM_write.
  destruct (Z.eqb_spec a 2); [done|].
  destruct (Z.eqb_spec a 1); [done|].
  by destruct (Z.eqb_spec a 0).
Qed.

(** X22: in every run, the EEPROM cells other than 0, 1, 2 hold at any
    time what they held at power-on: the sketch never writes outside
    its three cells. *)
Theorem other_eeprom_cells_never_change e ins a :
  a ≠ 0 → a ≠ 1 → a ≠ 2 →
  EEPROM (boot e ins).1 a = e a.
Proof.
  intros H0 H1 H2. rewrite boot_eq, fst_pair.
  enough (wf (run ins (setup (power_on e)).1).1
          ∧ EEPROM (run ins (setup (power_on e)).1).1 a = e a) by tauto.
  apply run_inv with
    (I := λ s, wf s ∧ EEPROM s a = e a) (G := λ _, True).
  - intros inp s [Hwf He] _. split; [by apply wf_loop|].
    rewrite EEPROM_loop by done.
    destruct (saving inp s); [|done].
    by rewrite saved_eeprom_other, EEPROM_checked.
  - split; [apply wf_setup, wf_power_on|].
    by rewrite setup_state, LoadState_power_on.
  - by apply Forall_forall.
Qed.

Lemma other_eeprom_cells_never_change_witness :
  EEPROM (boot (λ a, a) (all_down ++ [Input 1200 (all_pins HIGH)])).1 3 = 3.
Proof.
  apply (other_eeprom_cells_never_change (λ a, a)
           (all_down ++ [Input 1200 (all_pins HIGH)]) 3); discriminate.
Defined.
